(** * E-commerce catalog API: accounts, tokens, products

    A shallow embedding of the request handlers of the catalog service
    (auth, user and product controllers, the two Mongoose models and the
    token utilities) together with the properties its specification
    states about them.

    Conventions of the embedding:
    - a collection is the list of its documents in insertion order and a
      document's [_id] is its position (documents are never removed: both
      entities are only ever soft-deleted);
    - every handler reads the clock once; [now] is [Date.now()] in
      milliseconds;
    - a handler maps the collection to the new collection and the HTTP
      response ([next(createError(m, c))] is rendered by the error
      middleware as status [c] with message [m]). *)

From Stdlib Require Import ZArith NArith QArith Qround Qminmax String Ascii List Bool Lia Lqa.
From stdpp Require Import base decidable option list strings.
Import ListNotations.

#[local] Open Scope string_scope.
#[local] Open Scope N_scope.

Definition ObjectId := nat.
Bind Scope nat_scope with ObjectId.

(** The JSON envelope: [Json] is [res.status(s).json({success: true, ...})],
    [Fail] is an [AppError] (or a store error translated by [handleError]). *)
Inductive response (A : Type) : Type :=
| Json (status : nat) (data : A)
| Fail (status : nat) (message : string).
Arguments Json {A} status data.
Arguments Fail {A} status message.

Definition status_of {A} (r : response A) : nat :=
  match r with Json st _ => st | Fail st _ => st end.

(** [Array.prototype.join] on messages. *)
Fixpoint join (sep : string) (l : list string) : string :=
  match l with
  | [] => ""
  | [x] => x
  | x :: rest => x ++ sep ++ join sep rest
  end.

(** ** Regular expressions of the schema's [match] validators *)
Module Regex.

Inductive re : Type :=
| Void
| Eps
| Cls (p : ascii -> bool)
| Seq (r1 r2 : re)
| Alt (r1 r2 : re)
| Star (r : re).

Fixpoint nullable (r : re) : bool :=
  match r with
  | Void => false
  | Eps => true
  | Cls _ => false
  | Seq r1 r2 => nullable r1 && nullable r2
  | Alt r1 r2 => nullable r1 || nullable r2
  | Star _ => true
  end.

Definition seq (r1 r2 : re) : re :=
  match r1, r2 with
  | Void, _ => Void
  | _, Void => Void
  | Eps, _ => r2
  | _, _ => Seq r1 r2
  end.

Definition alt (r1 r2 : re) : re :=
  match r1, r2 with
  | Void, _ => r2
  | _, Void => r1
  | _, _ => Alt r1 r2
  end.

Fixpoint deriv (c : ascii) (r : re) : re :=
  match r with
  | Void => Void
  | Eps => Void
  | Cls p => if p c then Eps else Void
  | Seq r1 r2 =>
      if nullable r1 then alt (seq (deriv c r1) r2) (deriv c r2)
      else seq (deriv c r1) r2
  | Alt r1 r2 => alt (deriv c r1) (deriv c r2)
  | Star r1 => seq (deriv c r1) (Star r1)
  end.

(** [/^r$/.test(s)] *)
Fixpoint test (r : re) (s : string) : bool :=
  match s with
  | EmptyString => nullable r
  | String c s' => test (deriv c r) s'
  end.

Definition plus (r : re) : re := Seq r (Star r).
Definition opt (r : re) : re := Alt Eps r.
Fixpoint upto (n : nat) (r : re) : re :=
  match n with
  | O => Eps
  | S n' => opt (Seq r (upto n' r))
  end.

Definition between (lo hi : nat) (c : ascii) : bool :=
  let n := nat_of_ascii c in (lo <=? n)%nat && (n <=? hi)%nat.
Definition chr (a : ascii) : re := Cls (Ascii.eqb a).
Definition digit : ascii -> bool := between 48 57.
Definition word (c : ascii) : bool :=
  between 97 122 c || between 65 90 c || digit c || Ascii.eqb c "_"%char.

Definition w := Cls word.
Definition d := Cls digit.

(** [\w+([.-]?\w+)*] *)
Definition dotted : re :=
  Seq (plus w)
      (Star (Seq (opt (Cls (fun c => Ascii.eqb c "."%char || Ascii.eqb c "-"%char)))
                 (plus w))).

(** [/^\w+([.-]?\w+)*@\w+([.-]?\w+)*(\.\w{2,3})+$/] *)
Definition email_re : re :=
  Seq dotted
      (Seq (chr "@"%char)
           (Seq dotted
                (plus (Seq (chr "."%char) (Seq w (Seq w (opt w))))))).

(** [/^\+?[1-9]\d{1,14}$/] *)
Definition phone_re : re :=
  Seq (opt (chr "+"%char))
      (Seq (Cls (between 49 57)) (Seq d (upto 13 d))).

End Regex.

(** ** jsonwebtoken

    An HS256 token is determined by the signing secret and the claims: the
    payload handed to [sign], [iat] (the clock in whole seconds) and
    [exp = iat + expiresIn].  Two [sign] calls with the same payload and
    secret within one clock second therefore return the same string.  Any
    other value a client may send is [Malformed]. *)
Module Jwt.

Record Payload : Type := mkPayload {
  id : ObjectId;
  email : option string;
  role : option string
}.

Inductive Token : Type :=
| Signed (secret : string) (payload : Payload) (iat exp : N)
| Malformed (raw : string).

Inductive VerifyError : Type := TokenExpiredError | JsonWebTokenError.

(** [jwt.sign(payload, secret, { expiresIn })], [expiresIn] in seconds. *)
Definition sign (payload : Payload) (secret : string) (expiresIn : N)
    (now : N) : Token :=
  let iat := now / 1000 in
  Signed secret payload iat (iat + expiresIn).

(** [jwt.verify(token, secret)]: signature first, then expiry. *)
Definition verify (token : Token) (secret : string) (now : N)
    : VerifyError + Payload :=
  match token with
  | Malformed _ => inl JsonWebTokenError
  | Signed key payload _ exp =>
      if negb (String.eqb key secret) then inl JsonWebTokenError
      else if exp <=? now / 1000 then inl TokenExpiredError
      else inr payload
  end.

End Jwt.

#[global] Instance Payload_eq_dec : EqDecision Jwt.Payload.
Proof. solve_decision. Defined.
#[global] Instance Token_eq_dec : EqDecision Jwt.Token.
Proof. solve_decision. Defined.

(** Process-wide configuration read from [process.env]. *)
Record Config : Type := mkConfig {
  NODE_ENV : option string;
  JWT_SECRET : string;
  JWT_EXPIRE : N;
  JWT_REFRESH_SECRET : string;
  JWT_REFRESH_EXPIRE : N
}.

(** bcryptjs: the salted one-way hash and its comparison. *)
Class Bcrypt : Type := {
  bcrypt_hash : string -> string;
  bcrypt_compare : string -> string -> bool
}.


(** [findOne(filter)] on a collection: the first document, in insertion
    order, that satisfies the filter, with its [_id]. *)
Fixpoint findOne_from {A} (p : ObjectId -> A -> bool) (i : nat) (l : list A)
    : option (ObjectId * A) :=
  match l with
  | [] => None
  | x :: rest => if p i x then Some (i, x) else findOne_from p (S i) rest
  end.

(** A filter that also constrains [_id]. *)
Definition findOne_id {A} (p : ObjectId -> A -> bool) (l : list A)
    : option (ObjectId * A) :=
  findOne_from p 0 l.

Definition findOne {A} (p : A -> bool) (l : list A) : option (ObjectId * A) :=
  findOne_id (fun _ => p) l.

(** ** The account model (models/User) *)
Module User.

(** [enum: ['user', 'admin']] *)
Inductive Role : Type := RoleUser | RoleAdmin.

Definition role_of_string (s : string) : option Role :=
  if String.eqb s "user" then Some RoleUser
  else if String.eqb s "admin" then Some RoleAdmin
  else None.

Definition role_to_string (r : Role) : string :=
  match r with RoleUser => "user" | RoleAdmin => "admin" end.

Definition is_admin (r : Role) : bool :=
  match r with RoleAdmin => true | RoleUser => false end.

Record Address : Type := mkAddress {
  street : option string;
  city : option string;
  state : option string;
  zipCode : option string;
  country : option string
}.

(** A stored account.  [password] holds the bcrypt hash; [refreshToken] is
    the single slot ([None] for a slot that is unset or [null]);
    [createdAt] and [updatedAt] are the stamps of [timestamps: true]. *)
Record t : Type := mk {
  name : string;
  email : string;
  password : string;
  role : Role;
  phone : option string;
  address : option Address;
  avatar : option string;
  isActive : bool;
  lastLogin : option N;
  refreshToken : option Jwt.Token;
  createdAt : N;
  updatedAt : N
}.

Definition set_name (v : string) (u : t) : t :=
  mk v (email u) (password u) (role u) (phone u) (address u) (avatar u)
     (isActive u) (lastLogin u) (refreshToken u) (createdAt u) (updatedAt u).
Definition set_role (v : Role) (u : t) : t :=
  mk (name u) (email u) (password u) v (phone u) (address u) (avatar u)
     (isActive u) (lastLogin u) (refreshToken u) (createdAt u) (updatedAt u).
Definition set_phone (v : option string) (u : t) : t :=
  mk (name u) (email u) (password u) (role u) v (address u) (avatar u)
     (isActive u) (lastLogin u) (refreshToken u) (createdAt u) (updatedAt u).
Definition set_address (v : option Address) (u : t) : t :=
  mk (name u) (email u) (password u) (role u) (phone u) v (avatar u)
     (isActive u) (lastLogin u) (refreshToken u) (createdAt u) (updatedAt u).
Definition set_avatar (v : option string) (u : t) : t :=
  mk (name u) (email u) (password u) (role u) (phone u) (address u) v
     (isActive u) (lastLogin u) (refreshToken u) (createdAt u) (updatedAt u).
Definition set_isActive (v : bool) (u : t) : t :=
  mk (name u) (email u) (password u) (role u) (phone u) (address u) (avatar u)
     v (lastLogin u) (refreshToken u) (createdAt u) (updatedAt u).
Definition set_lastLogin (v : option N) (u : t) : t :=
  mk (name u) (email u) (password u) (role u) (phone u) (address u) (avatar u)
     (isActive u) v (refreshToken u) (createdAt u) (updatedAt u).
Definition set_refreshToken (v : option Jwt.Token) (u : t) : t :=
  mk (name u) (email u) (password u) (role u) (phone u) (address u) (avatar u)
     (isActive u) (lastLogin u) v (createdAt u) (updatedAt u).
Definition set_updatedAt (v : N) (u : t) : t :=
  mk (name u) (email u) (password u) (role u) (phone u) (address u) (avatar u)
     (isActive u) (lastLogin u) (refreshToken u) (createdAt u) v.

(** *** Schema validators

    Each path reports the message of its first failing validator.  The
    [match] validator of Mongoose accepts the empty string. *)
Definition validate_name (v : string) : list string :=
  if String.eqb v "" then ["Please provide a name"]
  else if (50 <? String.length v)%nat then ["Name cannot be more than 50 characters"]
  else [].

Definition validate_email (v : string) : list string :=
  if String.eqb v "" then ["Please provide an email"]
  else if Regex.test Regex.email_re v then []
  else ["Please provide a valid email"].

Definition validate_password (v : string) : list string :=
  if String.eqb v "" then ["Please provide a password"]
  else if (String.length v <? 6)%nat then ["Password must be at least 6 characters"]
  else [].

Definition validate_phone (v : option string) : list string :=
  match v with
  | None => []
  | Some p =>
      if String.eqb p "" || Regex.test Regex.phone_re p then []
      else ["Please provide a valid phone number"]
  end.

(** Document validation of a loaded account.  The stored password is a
    60-character bcrypt hash, which always passes the password validators;
    they are evaluated on the plaintext, in [create]. *)
Definition validate (u : t) : list string :=
  (validate_name (name u) ++ validate_email (email u)
   ++ validate_phone (phone u))%list.

End User.

#[global] Instance Role_eq_dec : EqDecision User.Role.
Proof. solve_decision. Defined.
#[global] Instance Address_eq_dec : EqDecision User.Address.
Proof. solve_decision. Defined.
#[global] Instance User_eq_dec : EqDecision User.t.
Proof. solve_decision. Defined.

(** The translation of a Mongoose [ValidationError] by [handleError]. *)
Definition validation_failure {A} (errors : list string) : response A :=
  Fail 400 (join ". " errors).

Section UserStore.
Context {hasher : Bcrypt}.

(** The fields handed to [User.create]. *)
Record NewUser : Type := mkNewUser {
  new_name : string;
  new_email : string;
  new_password : string;
  new_phone : option string;
  new_address : option User.Address;
  new_role : User.Role
}.

(** [User.create]: schema defaults, validation, the pre-save hook that
    hashes the password, then the insert. *)
Definition User_create (now : N) (f : NewUser) (users : list User.t)
    : list string + (ObjectId * User.t * list User.t) :=
  let errors :=
    (User.validate_name (new_name f) ++ User.validate_email (new_email f)
     ++ User.validate_password (new_password f)
     ++ User.validate_phone (new_phone f))%list in
  match errors with
  | [] =>
      let u := User.mk (new_name f) (new_email f) (bcrypt_hash (new_password f))
                       (new_role f) (new_phone f) (new_address f) None
                       true None None now now in
      inr (length users, u, (users ++ [u])%list)
  | _ => inl errors
  end.

(** [doc.save()] of a loaded account: document validation, then the write;
    [updatedAt] is stamped when the document differs from the stored one. *)
Definition User_save (now : N) (i : ObjectId) (u : User.t) (users : list User.t)
    : list string + (User.t * list User.t) :=
  match User.validate u with
  | [] =>
      let u' := if decide (users !! i = Some u) then u
                else User.set_updatedAt now u in
      inr (u', <[i := u']> users)
  | errors => inl errors
  end.

(** [userSchema.methods.matchPassword] *)
Definition matchPassword (u : User.t) (enteredPassword : string) : bool :=
  bcrypt_compare enteredPassword (User.password u).

(** [userSchema.statics.findByRefreshToken] *)
Definition findByRefreshToken (cfg : Config) (now : N) (token : Jwt.Token)
    (users : list User.t) : option (ObjectId * User.t) :=
  match Jwt.verify token (JWT_REFRESH_SECRET cfg) now with
  | inr decoded =>
      match users !! Jwt.id decoded with
      | Some u => Some (Jwt.id decoded, u)
      | None => None
      end
  | inl _ => None
  end.

End UserStore.

(** ** Token utilities (utils/tokenUtils) *)
Record TokenResponse : Type := mkTokenResponse {
  accessToken : Jwt.Token;
  tr_refreshToken : Jwt.Token;
  tokenType : string;
  expiresIn : N
}.

Definition generateAccessToken (cfg : Config) (now : N) (payload : Jwt.Payload)
    : Jwt.Token :=
  Jwt.sign payload (JWT_SECRET cfg) (JWT_EXPIRE cfg) now.

Definition generateRefreshToken (cfg : Config) (now : N) (payload : Jwt.Payload)
    : Jwt.Token :=
  Jwt.sign payload (JWT_REFRESH_SECRET cfg) (JWT_REFRESH_EXPIRE cfg) now.

Definition generateTokenResponse (cfg : Config) (now : N) (i : ObjectId)
    (u : User.t) : TokenResponse :=
  let payload :=
    Jwt.mkPayload i (Some (User.email u))
                  (Some (User.role_to_string (User.role u))) in
  mkTokenResponse (generateAccessToken cfg now payload)
                  (generateRefreshToken cfg now (Jwt.mkPayload i None None))
                  "Bearer" (JWT_EXPIRE cfg).

(** ** JavaScript values and numbers

    [JsValue] is a field of a parsed JSON body ([JOther] stands for objects
    and arrays).  [JsNum] is a number as listing arithmetic sees it: an
    exact rational, an infinity or [NaN]. *)
Inductive JsValue : Type :=
| JUndefined
| JNull
| JBool (b : bool)
| JNum (q : Q)
| JStr (s : string)
| JOther.

Inductive JsNum : Type :=
| Num (q : Q)
| PInf
| NInf
| NaN.

Definition Qsign (q : Q) : comparison := (0 ?= q)%Q.

(** [a / b] *)
Definition js_div (a b : JsNum) : JsNum :=
  match a, b with
  | NaN, _ | _, NaN => NaN
  | Num x, Num y =>
      match Qsign y with
      | Eq => match Qsign x with Eq => NaN | Lt => PInf | Gt => NInf end
      | Lt => Num (x / y)
      | Gt => Num (x / y)
      end
  | Num _, (PInf | NInf) => Num 0
  | (PInf | NInf), (PInf | NInf) => NaN
  | PInf, Num y => match Qsign y with Gt => NInf | _ => PInf end
  | NInf, Num y => match Qsign y with Gt => PInf | _ => NInf end
  end.

(** [Math.ceil] *)
Definition Math_ceil (a : JsNum) : JsNum :=
  match a with
  | Num x => Num (inject_Z (Qceiling x))
  | other => other
  end.

(** [a < b] *)
Definition js_lt (a b : JsNum) : bool :=
  match a, b with
  | NaN, _ | _, NaN => false
  | Num x, Num y => negb (Qle_bool y x)
  | NInf, (Num _ | PInf) => true
  | Num _, PInf => true
  | _, _ => false
  end.

(** [a > b] *)
Definition js_gt (a b : JsNum) : bool := js_lt b a.

(** The [pagination] object of a listing response. *)
Record Pagination : Type := mkPagination {
  totalPages : JsNum;
  totalCount : N;
  hasNextPage : bool;
  hasPrevPage : bool
}.

(** The pagination arithmetic shared by the listing handlers: [page] and
    [limit] are the numeric values of the query parameters after the
    defaults have been applied. *)
Definition paginate (page limit : JsNum) (total : N) : Pagination :=
  let totalPages := Math_ceil (js_div (Num (inject_Z (Z.of_N total))) limit) in
  mkPagination totalPages total (js_lt page totalPages) (js_gt page (Num 1)).

(** The account as a handler serialises it (never the hash, never the
    refresh token).  Individual handlers send a subset of these fields. *)
Record Profile : Type := mkProfile {
  p_id : ObjectId;
  p_name : string;
  p_email : string;
  p_role : User.Role;
  p_phone : option string;
  p_address : option User.Address;
  p_avatar : option string;
  p_isActive : bool;
  p_lastLogin : option N;
  p_createdAt : N;
  p_updatedAt : N
}.

Definition profile (i : ObjectId) (u : User.t) : Profile :=
  mkProfile i (User.name u) (User.email u) (User.role u) (User.phone u)
            (User.address u) (User.avatar u) (User.isActive u)
            (User.lastLogin u) (User.createdAt u) (User.updatedAt u).

(** [req.user], attached by the [protect] middleware. *)
Record Caller : Type := mkCaller {
  caller_id : ObjectId;
  caller_role : User.Role
}.

(** [Model.findByIdAndUpdate(id, update)]: no save middleware runs; the
    update stamps [updatedAt].  A missing document leaves the collection
    as it is. *)
Definition findByIdAndUpdate {A} (stamp : N -> A -> A) (now : N) (i : ObjectId)
    (update : A -> A) (docs : list A) : list A :=
  match docs !! i with
  | Some doc => <[i := stamp now (update doc)]> docs
  | None => docs
  end.

(** ** controllers/authController *)
Section AuthController.
Context {hasher : Bcrypt}.
Variable cfg : Config.

Record RegisterBody : Type := mkRegisterBody {
  reg_name : string;
  reg_email : string;
  reg_password : string;
  reg_phone : option string;
  reg_address : option User.Address;
  reg_role : option string
}.

Definition option_string_is (o : option string) (s : string) : bool :=
  match o with Some x => String.eqb x s | None => false end.

(** The role a registration is granted. *)
Definition register_role (role : option string) (users : list User.t)
    : User.Role :=
  if option_string_is role "admin" then
    if option_string_is (NODE_ENV cfg) "development" then User.RoleAdmin
    else
      match findOne (fun u => User.is_admin (User.role u)) users with
      | Some _ => User.RoleUser
      | None => User.RoleAdmin
      end
  else User.RoleUser.

Definition register (now : N) (body : RegisterBody) (users : list User.t)
    : list User.t * response (Profile * TokenResponse) :=
  match findOne (fun u => String.eqb (User.email u) (reg_email body)) users with
  | Some _ => (users, Fail 409 "User with this email already exists")
  | None =>
      let userRole := register_role (reg_role body) users in
      match User_create now
              (mkNewUser (reg_name body) (reg_email body) (reg_password body)
                         (reg_phone body) (reg_address body) userRole) users with
      | inl errors => (users, validation_failure errors)
      | inr (i, user, users1) =>
          let tokenResponse := generateTokenResponse cfg now i user in
          let user' :=
            User.set_lastLogin (Some now)
              (User.set_refreshToken (Some (tr_refreshToken tokenResponse)) user) in
          match User_save now i user' users1 with
          | inl errors => (users1, validation_failure errors)
          | inr (saved, users2) =>
              (users2, Json 201 (profile i saved, tokenResponse))
          end
      end
  end.

Definition login (now : N) (email password : string) (users : list User.t)
    : list User.t * response (Profile * TokenResponse) :=
  match findOne (fun u => String.eqb (User.email u) email) users with
  | None => (users, Fail 401 "Invalid email or password")
  | Some (i, user) =>
      if negb (User.isActive user) then
        (users, Fail 401 "Your account has been deactivated. Please contact support.")
      else if negb (matchPassword user password) then
        (users, Fail 401 "Invalid email or password")
      else
        let tokenResponse := generateTokenResponse cfg now i user in
        let user' :=
          User.set_lastLogin (Some now)
            (User.set_refreshToken (Some (tr_refreshToken tokenResponse)) user) in
        match User_save now i user' users with
        | inl errors => (users, validation_failure errors)
        | inr (saved, users') =>
            (users', Json 200 (profile i saved, tokenResponse))
        end
  end.

(** [!token] on the body field: absent, [null] and the empty string are
    falsy; every other value that is not a signed token is [Malformed]. *)
Definition falsy (token : option Jwt.Token) : bool :=
  match token with
  | None => true
  | Some (Jwt.Malformed raw) => String.eqb raw ""
  | Some _ => false
  end.

Definition refreshToken (now : N) (body_refreshToken : option Jwt.Token)
    (users : list User.t) : list User.t * response TokenResponse :=
  match body_refreshToken with
  | None => (users, Fail 400 "Refresh token is required")
  | Some token =>
      if falsy (Some token) then (users, Fail 400 "Refresh token is required")
      else
        match findByRefreshToken cfg now token users with
        | None => (users, Fail 401 "Invalid refresh token")
        | Some (i, user) =>
            if negb (bool_decide (User.refreshToken user = Some token)) then
              (users, Fail 401 "Invalid refresh token")
            else if negb (User.isActive user) then
              (users, Fail 401 "User account is deactivated")
            else
              let tokenResponse := generateTokenResponse cfg now i user in
              let user' :=
                User.set_refreshToken (Some (tr_refreshToken tokenResponse)) user in
              match User_save now i user' users with
              | inl errors => (users, validation_failure errors)
              | inr (_, users') => (users', Json 200 tokenResponse)
              end
        end
  end.


End AuthController.

(** ** controllers/userController *)
Section UserController.

(** Pagination of [getAllUsers]: [page = 1] and [limit = 10] by default. *)
Definition getAllUsers_pagination (page limit : option JsNum) (totalUsers : N)
    : Pagination :=
  paginate (default (Num 1) page) (default (Num 10) limit) totalUsers.

Record UpdateUserBody : Type := mkUpdateUserBody {
  body_name : option string;
  body_phone : option string;
  body_address : option User.Address;
  body_avatar : option string;
  body_role : option string;
  body_isActive : option bool
}.

(** The [updateData] object: a path is present when it is [Some]. *)
Record UserUpdate : Type := mkUserUpdate {
  ud_name : option string;
  ud_phone : option string;
  ud_address : option User.Address;
  ud_avatar : option string;
  ud_role : option string;
  ud_isActive : option bool
}.

Definition updateData_of (caller : Caller) (body : UpdateUserBody) : UserUpdate :=
  let admin := User.is_admin (caller_role caller) in
  mkUserUpdate (body_name body) (body_phone body) (body_address body)
               (body_avatar body)
               (if admin then body_role body else None)
               (if admin then body_isActive body else None).

(** Update validators ([runValidators: true]) run on the paths present in
    the update only. *)
Definition validate_update (d : UserUpdate) : list string :=
  (from_option User.validate_name [] (ud_name d)
   ++ match ud_role d with
      | Some r =>
          match User.role_of_string r with
          | Some _ => []
          | None => [("`" ++ r ++ "` is not a valid enum value for path `role`.")%string]
          end
      | None => []
      end
   ++ match ud_phone d with
      | Some p => User.validate_phone (Some p)
      | None => []
      end)%list.

Definition apply_update (d : UserUpdate) (u : User.t) : User.t :=
  let u := from_option (fun v => User.set_name v u) u (ud_name d) in
  let u := from_option (fun v => User.set_phone (Some v) u) u (ud_phone d) in
  let u := from_option (fun v => User.set_address (Some v) u) u (ud_address d) in
  let u := from_option (fun v => User.set_avatar (Some v) u) u (ud_avatar d) in
  let u :=
    match ud_role d with
    | Some r => from_option (fun v => User.set_role v u) u (User.role_of_string r)
    | None => u
    end in
  from_option (fun v => User.set_isActive v u) u (ud_isActive d).

Definition updateUser (now : N) (caller : Caller) (id : ObjectId)
    (body : UpdateUserBody) (users : list User.t)
    : list User.t * response Profile :=
  match users !! id with
  | None => (users, Fail 404 "User not found")
  | Some user =>
      if negb (Nat.eqb (caller_id caller) id)
         && negb (User.is_admin (caller_role caller)) then
        (users, Fail 403 "Access denied. You can only update your own profile.")
      else
        let updateData := updateData_of caller body in
        match validate_update updateData with
        | [] =>
            let users' :=
              findByIdAndUpdate User.set_updatedAt now id
                                (apply_update updateData) users in
            (users',
             Json 200 (profile id (User.set_updatedAt now
                                     (apply_update updateData user))))
        | errors => (users, validation_failure errors)
        end
  end.

Definition deleteUser (now : N) (caller : Caller) (id : ObjectId)
    (users : list User.t) : list User.t * response unit :=
  match users !! id with
  | None => (users, Fail 404 "User not found")
  | Some user =>
      if negb (Nat.eqb (caller_id caller) id)
         && negb (User.is_admin (caller_role caller)) then
        (users, Fail 403 "Access denied. You can only delete your own account.")
      else if User.is_admin (caller_role caller)
              && Nat.eqb (caller_id caller) id then
        (users, Fail 400 "Admin cannot delete their own account")
      else
        (findByIdAndUpdate User.set_updatedAt now id
           (fun u => User.set_refreshToken None (User.set_isActive false u))
           users,
         Json 200 tt)
  end.

Definition toggleUserStatus (now : N) (caller : Caller)
    (id : ObjectId) (body_isActive : JsValue) (users : list User.t)
    : list User.t * response (ObjectId * string * string * bool) :=
  match body_isActive with
  | JBool isActive =>
      match users !! id with
      | None => (users, Fail 404 "User not found")
      | Some user =>
          if Nat.eqb (caller_id caller) id then
            (users, Fail 400 "Admin cannot change their own account status")
          else
            let user1 := User.set_isActive isActive user in
            let user2 :=
              if negb isActive then User.set_refreshToken None user1 else user1 in
            match User_save now id user2 users with
            | inl errors => (users, validation_failure errors)
            | inr (saved, users') =>
                (users',
                 Json 200 (id, User.name saved, User.email saved,
                           User.isActive saved))
            end
      end
  | _ => (users, Fail 400 "isActive field must be a boolean value")
  end.

End UserController.

(** ** The product model (models/Product) *)

#[global] Instance Q_eq_dec : EqDecision Q.
Proof. solve_decision. Defined.

(** [String.prototype.toUpperCase] on ASCII letters. *)
Definition upper_ascii (c : ascii) : ascii :=
  if Regex.between 97 122 c then ascii_of_nat (nat_of_ascii c - 32) else c.

Fixpoint toUpperCase (s : string) : string :=
  match s with
  | EmptyString => EmptyString
  | String c rest => String (upper_ascii c) (toUpperCase rest)
  end.

(** [Math.max(a, b)] on finite numbers. *)
Definition Math_max (a b : Q) : Q := if Qle_bool a b then b else a.

(** [q < 0] *)
Definition Qnegative (q : Q) : bool := negb (Qle_bool 0 q).

Module Product.

Record Image : Type := mkImage {
  url : string;
  alt : string;
  isPrimary : bool
}.

Definition set_isPrimary (v : bool) (img : Image) : Image :=
  mkImage (url img) (alt img) v.

(** The modelled paths of a stored product.  The remaining paths of the
    schema (specifications, tags, weight, dimensions, rating, SEO texts)
    are not read by any handler below. *)
Record t : Type := mk {
  name : string;
  description : string;
  price : Q;
  comparePrice : option Q;
  category : string;
  brand : string;
  sku : string;
  stock : Q;
  images : list Image;
  isActive : bool;
  isFeatured : bool;
  createdBy : ObjectId;
  updatedBy : option ObjectId;
  createdAt : N;
  updatedAt : N
}.

Definition set_stock (v : Q) (p : t) : t :=
  mk (name p) (description p) (price p) (comparePrice p) (category p) (brand p)
     (sku p) v (images p) (isActive p) (isFeatured p) (createdBy p)
     (updatedBy p) (createdAt p) (updatedAt p).
Definition set_images (v : list Image) (p : t) : t :=
  mk (name p) (description p) (price p) (comparePrice p) (category p) (brand p)
     (sku p) (stock p) v (isActive p) (isFeatured p) (createdBy p)
     (updatedBy p) (createdAt p) (updatedAt p).
Definition set_isActive (v : bool) (p : t) : t :=
  mk (name p) (description p) (price p) (comparePrice p) (category p) (brand p)
     (sku p) (stock p) (images p) v (isFeatured p) (createdBy p)
     (updatedBy p) (createdAt p) (updatedAt p).
Definition set_updatedBy (v : option ObjectId) (p : t) : t :=
  mk (name p) (description p) (price p) (comparePrice p) (category p) (brand p)
     (sku p) (stock p) (images p) (isActive p) (isFeatured p) (createdBy p)
     v (createdAt p) (updatedAt p).
Definition set_updatedAt (v : N) (p : t) : t :=
  mk (name p) (description p) (price p) (comparePrice p) (category p) (brand p)
     (sku p) (stock p) (images p) (isActive p) (isFeatured p) (createdBy p)
     (updatedBy p) (createdAt p) v.

Definition categories : list string :=
  ["electronics"; "clothing"; "books"; "home"; "sports"; "beauty"; "toys";
   "automotive"; "health"; "food"; "other"].

Definition includes (l : list string) (s : string) : bool :=
  existsb (String.eqb s) l.

(** *** Schema validators *)
Definition required (message : string) (v : string) : list string :=
  if String.eqb v "" then [message] else [].

Definition maxlength (n : nat) (message : string) (v : string) : list string :=
  if (n <? String.length v)%nat then [message] else [].

Definition first_error (a b : list string) : list string :=
  match a with [] => b | _ => a end.

Definition validate_name (v : string) : list string :=
  first_error (required "Please provide a product name" v)
    (maxlength 100 "Product name cannot be more than 100 characters" v).

Definition validate_description (v : string) : list string :=
  first_error (required "Please provide a product description" v)
    (maxlength 2000 "Description cannot be more than 2000 characters" v).

Definition validate_price (v : Q) : list string :=
  if Qnegative v then ["Price cannot be negative"] else [].

(** The custom validator of [comparePrice]:
    [function(value) { return !value || value >= this.price; }],
    [this_price] being what [this.price] evaluates to ([None] for
    [undefined], against which every comparison is false). *)
Definition comparePrice_validator (this_price : option Q) (value : Q) : bool :=
  Qeq_bool value 0
  || match this_price with
     | Some price => Qle_bool price value
     | None => false
     end.

Definition validate_comparePrice (this_price : option Q) (v : option Q)
    : list string :=
  match v with
  | None => []
  | Some value =>
      if Qnegative value then ["Compare price cannot be negative"]
      else if comparePrice_validator this_price value then []
      else ["Compare price should be greater than or equal to the selling price"]
  end.

Definition validate_category (v : string) : list string :=
  first_error (required "Please provide a product category" v)
    (if includes categories v then [] else ["Please select a valid category"]).

Definition validate_stock (v : Q) : list string :=
  if Qnegative v then ["Stock cannot be negative"] else [].

Definition validate_images (v : list Image) : list string :=
  flat_map (fun img => required "Path `url` is required." (url img)) v.

(** Document validation: [this] is the document. *)
Definition validate (p : t) : list string :=
  (validate_name (name p) ++ validate_description (description p)
   ++ validate_price (price p)
   ++ validate_comparePrice (Some (price p)) (comparePrice p)
   ++ validate_category (category p)
   ++ required "Please provide a brand name" (brand p)
   ++ required "Please provide a SKU" (sku p)
   ++ validate_stock (stock p)
   ++ validate_images (images p))%list.

(** *** The pre-save middleware: only one primary image *)

(** [images.findIndex(i => i.isPrimary)], [-1] when there is none. *)
Fixpoint findIndex_from (i : Z) (imgs : list Image) : Z :=
  match imgs with
  | [] => (-1)%Z
  | img :: rest => if isPrimary img then i else findIndex_from (i + 1)%Z rest
  end.

Definition findIndex_isPrimary (imgs : list Image) : Z := findIndex_from 0%Z imgs.

(** [images.forEach((img, index) => { img.isPrimary = index ===
    images.findIndex(i => i.isPrimary); })]: the callback mutates the
    array it searches, so each step reads the array as the previous steps
    left it.  [todo] counts the elements still to visit. *)
Fixpoint forEach_mark (index todo : nat) (imgs : list Image) : list Image :=
  match todo with
  | O => imgs
  | S todo' =>
      let imgs' :=
        match imgs !! index with
        | Some img =>
            <[index := set_isPrimary
                         (Z.eqb (Z.of_nat index) (findIndex_isPrimary imgs)) img]>
              imgs
        | None => imgs
        end in
      forEach_mark (S index) todo' imgs'
  end.

Definition pre_save_images (imgs : list Image) : list Image :=
  if (0 <? length imgs)%nat then
    let primaryImages := List.filter isPrimary imgs in
    if (length primaryImages =? 0)%nat then
      match imgs with
      | first :: rest => set_isPrimary true first :: rest
      | [] => imgs
      end
    else if (1 <? length primaryImages)%nat then
      forEach_mark 0 (length imgs) imgs
    else imgs
  else imgs.

Definition pre_save (p : t) : t := set_images (pre_save_images (images p)) p.

(** The [primaryImage] virtual. *)
Definition primaryImage (p : t) : option string :=
  match List.find isPrimary (images p) with
  | Some img => Some (url img)
  | None =>
      match images p with
      | first :: _ => Some (url first)
      | [] => None
      end
  end.

(** The [availabilityStatus] virtual. *)
Definition availabilityStatus (p : t) : string :=
  if Qeq_bool (stock p) 0 then "out-of-stock"
  else if Qle_bool (stock p) 5 then "low-stock"
  else "in-stock".

End Product.

#[global] Instance Image_eq_dec : EqDecision Product.Image.
Proof. solve_decision. Defined.
#[global] Instance Product_eq_dec : EqDecision Product.t.
Proof. solve_decision. Defined.

(** [doc.save()] of a product: document validation, then the pre-save
    middleware, then the write. *)
Definition Product_save (now : N) (i : ObjectId) (p : Product.t)
    (products : list Product.t) : list string + (Product.t * list Product.t) :=
  match Product.validate p with
  | [] =>
      let p1 := Product.pre_save p in
      let p2 := if decide (products !! i = Some p1) then p1
                else Product.set_updatedAt now p1 in
      inr (p2, <[i := p2]> products)
  | errors => inl errors
  end.

(** [Product.create]: a new document goes through the same validation and
    middleware and is appended. *)
Definition Product_create (now : N) (p : Product.t) (products : list Product.t)
    : list string + (ObjectId * Product.t * list Product.t) :=
  match Product.validate p with
  | [] =>
      let p1 := Product.pre_save p in
      inr (length products, p1, (products ++ [p1])%list)
  | errors => inl errors
  end.

(** ** controllers/productController *)
Section ProductController.


Record ImageInput : Type := mkImageInput {
  in_url : string;
  in_alt : option string;
  in_isPrimary : option bool
}.

(** Casting an image sub-document applies the schema defaults. *)
Definition cast_image (i : ImageInput) : Product.Image :=
  Product.mkImage (in_url i) (default "" (in_alt i)) (default false (in_isPrimary i)).

Record CreateProductBody : Type := mkCreateProductBody {
  cb_name : string;
  cb_description : string;
  cb_price : Q;
  cb_comparePrice : option Q;
  cb_category : string;
  cb_brand : string;
  cb_sku : string;
  cb_stock : Q;
  cb_images : list ImageInput;
  cb_isFeatured : option bool
}.

Definition createProduct (now : N) (caller : Caller) (body : CreateProductBody)
    (products : list Product.t)
    : list Product.t * response (ObjectId * Product.t) :=
  match findOne (fun p => String.eqb (Product.sku p) (toUpperCase (cb_sku body)))
                products with
  | Some _ => (products, Fail 409 "Product with this SKU already exists")
  | None =>
      let productData :=
        Product.mk (cb_name body) (cb_description body) (cb_price body)
                   (cb_comparePrice body) (cb_category body) (cb_brand body)
                   (toUpperCase (cb_sku body)) (cb_stock body)
                   (map cast_image (cb_images body)) true
                   (default false (cb_isFeatured body)) (caller_id caller)
                   None now now in
      match Product_create now productData products with
      | inl errors => (products, validation_failure errors)
      | inr (i, product, products') => (products', Json 201 (i, product))
      end
  end.

Record UpdateProductBody : Type := mkUpdateProductBody {
  ub_name : option string;
  ub_description : option string;
  ub_price : option Q;
  ub_comparePrice : option Q;
  ub_category : option string;
  ub_brand : option string;
  ub_sku : option string;
  ub_stock : option Q;
  ub_images : option (list ImageInput);
  ub_isActive : option bool;
  ub_isFeatured : option bool
}.

(** Update validators ([runValidators: true]): only the paths present in
    the update are validated, and [this] is the query, not the document,
    so [this.price] is [undefined] in the [comparePrice] validator. *)
Definition validate_product_update (b : UpdateProductBody) : list string :=
  (from_option Product.validate_name [] (ub_name b)
   ++ from_option Product.validate_description [] (ub_description b)
   ++ from_option Product.validate_price [] (ub_price b)
   ++ Product.validate_comparePrice None (ub_comparePrice b)
   ++ from_option Product.validate_category [] (ub_category b)
   ++ from_option (Product.required "Please provide a brand name") [] (ub_brand b)
   ++ from_option (Product.required "Please provide a SKU") [] (ub_sku b)
   ++ from_option Product.validate_stock [] (ub_stock b)
   ++ from_option (fun l => Product.validate_images (map cast_image l)) []
        (ub_images b))%list.

Definition apply_product_update (b : UpdateProductBody) (updatedBy : ObjectId)
    (p : Product.t) : Product.t :=
  Product.mk (default (Product.name p) (ub_name b))
             (default (Product.description p) (ub_description b))
             (default (Product.price p) (ub_price b))
             (match ub_comparePrice b with
              | Some v => Some v
              | None => Product.comparePrice p
              end)
             (default (Product.category p) (ub_category b))
             (default (Product.brand p) (ub_brand b))
             (default (Product.sku p) (toUpperCase <$> ub_sku b))
             (default (Product.stock p) (ub_stock b))
             (default (Product.images p) (map cast_image <$> ub_images b))
             (default (Product.isActive p) (ub_isActive b))
             (default (Product.isFeatured p) (ub_isFeatured b))
             (Product.createdBy p) (Some updatedBy)
             (Product.createdAt p) (Product.updatedAt p).

Definition updateProduct (now : N) (caller : Caller) (id : ObjectId)
    (body : UpdateProductBody) (products : list Product.t)
    : list Product.t * response (ObjectId * Product.t) :=
  match products !! id with
  | None => (products, Fail 404 "Product not found")
  | Some product =>
      let sku_taken :=
        match ub_sku body with
        | Some sku =>
            if negb (String.eqb sku "")
               && negb (String.eqb (toUpperCase sku) (Product.sku product)) then
              match findOne_id
                      (fun i p => String.eqb (Product.sku p) (toUpperCase sku)
                                  && negb (Nat.eqb i id)) products with
              | Some _ => true
              | None => false
              end
            else false
        | None => false
        end in
      if sku_taken then
        (products, Fail 409 "Product with this SKU already exists")
      else
        match validate_product_update body with
        | [] =>
            let update := apply_product_update body (caller_id caller) in
            (findByIdAndUpdate Product.set_updatedAt now id update products,
             Json 200 (id, Product.set_updatedAt now (update product)))
        | errors => (products, validation_failure errors)
        end
  end.

Definition deleteProduct (now : N) (caller : Caller) (id : ObjectId)
    (products : list Product.t) : list Product.t * response unit :=
  match products !! id with
  | None => (products, Fail 404 "Product not found")
  | Some _ =>
      (findByIdAndUpdate Product.set_updatedAt now id
         (fun p => Product.set_updatedBy (Some (caller_id caller))
                     (Product.set_isActive false p)) products,
       Json 200 tt)
  end.

Definition toggleProductStatus (now : N) (caller : Caller) (id : ObjectId)
    (body_isActive : JsValue) (products : list Product.t)
    : list Product.t * response (ObjectId * Product.t) :=
  match body_isActive with
  | JBool isActive =>
      match products !! id with
      | None => (products, Fail 404 "Product not found")
      | Some product =>
          let product' :=
            Product.set_updatedBy (Some (caller_id caller))
              (Product.set_isActive isActive product) in
          match Product_save now id product' products with
          | inl errors => (products, validation_failure errors)
          | inr (saved, products') => (products', Json 200 (id, saved))
          end
      end
  | _ => (products, Fail 400 "isActive field must be a boolean value")
  end.

Inductive Operation : Type := OpSet | OpAdd | OpSubtract.

(** [['set', 'add', 'subtract'].includes(operation)], with the matching
    [switch] case. *)
Definition allowed_operation (operation : JsValue) : option Operation :=
  match operation with
  | JStr s =>
      if String.eqb s "set" then Some OpSet
      else if String.eqb s "add" then Some OpAdd
      else if String.eqb s "subtract" then Some OpSubtract
      else None
  | _ => None
  end.

(** The destructuring default [operation = 'set'] replaces [undefined]. *)
Definition operation_or_default (operation : JsValue) : JsValue :=
  match operation with JUndefined => JStr "set" | other => other end.

Definition newStock (op : Operation) (current stock : Q) : Q :=
  match op with
  | OpSet => stock
  | OpAdd => current + stock
  | OpSubtract => Math_max 0 (current - stock)
  end.

Definition updateStock (now : N) (caller : Caller) (id : ObjectId)
    (body_stock body_operation : JsValue) (products : list Product.t)
    : list Product.t * response (ObjectId * Product.t) :=
  let operation := operation_or_default body_operation in
  match body_stock with
  | JNum stock =>
      if Qnegative stock then
        (products, Fail 400 "Stock must be a positive number")
      else
        match allowed_operation operation with
        | None =>
            (products, Fail 400 "Operation must be one of: set, add, subtract")
        | Some op =>
            match products !! id with
            | None => (products, Fail 404 "Product not found")
            | Some product =>
                let product' :=
                  Product.set_updatedBy (Some (caller_id caller))
                    (Product.set_stock (newStock op (Product.stock product) stock)
                                       product) in
                match Product_save now id product' products with
                | inl errors => (products, validation_failure errors)
                | inr (saved, products') => (products', Json 200 (id, saved))
                end
            end
        end
  | _ => (products, Fail 400 "Stock must be a positive number")
  end.

End ProductController.

(** ** Token helpers (utils/tokenUtils), continued *)

(** [s.split(' ')] *)
Fixpoint split_space (s : string) : list string :=
  match s with
  | EmptyString => [EmptyString]
  | String c rest =>
      match split_space rest with
      | current :: more =>
          if Ascii.eqb c " "%char then EmptyString :: current :: more
          else String c current :: more
      | [] => []
      end
  end.

(** [extractTokenFromHeader]: [None] is [null]. *)
Definition extractTokenFromHeader (authHeader : option string) : option string :=
  match authHeader with
  | Some h =>
      if String.eqb h "" || negb (String.prefix "Bearer " h) then None
      else split_space h !! 1%nat
  | None => None
  end.

(** [jwt.decode]: the claims of any well-formed token, unverified. *)
Definition decodeToken (token : Jwt.Token) : option (Jwt.Payload * N * N) :=
  match token with
  | Jwt.Signed _ payload iat exp => Some (payload, iat, exp)
  | Jwt.Malformed _ => None
  end.

(** [isTokenExpired]: [!decoded.exp] also rejects an expiry of zero. *)
Definition isTokenExpired (now : N) (token : Jwt.Token) : bool :=
  match decodeToken token with
  | Some (_, _, exp) => if exp =? 0 then true else exp <? now / 1000
  | None => true
  end.

(** [getTokenExpiration], as milliseconds since the epoch. *)
Definition getTokenExpiration (token : Jwt.Token) : option N :=
  match decodeToken token with
  | Some (_, _, exp) => if exp =? 0 then None else Some (exp * 1000)
  | None => None
  end.

(** [verifyToken]: every failure of [jwt.verify] becomes a 401.  (The
    catch-all "Token verification failed" is for error kinds the token
    model does not produce.) *)
Definition verifyToken (now : N) (token : Jwt.Token) (secret : string)
    : response Jwt.Payload :=
  match Jwt.verify token secret now with
  | inr decoded => Json 200 decoded
  | inl Jwt.TokenExpiredError => Fail 401 "Token expired"
  | inl Jwt.JsonWebTokenError => Fail 401 "Invalid token"
  end.

(** ** middleware/auth *)

(** What a middleware hands on: [Next] continues with the request
    context, [NextError] is [next(createError(message, status))]. *)
Inductive next (A : Type) : Type :=
| Next (context : A)
| NextError (status : nat) (message : string).
Arguments Next {A} context.
Arguments NextError {A} status message.

Section Middleware.
(** The token a header string spells out, as jsonwebtoken reads it. *)
Variable token_of_string : string -> Jwt.Token.
Variable cfg : Config.

(** The token part both gates take from the [Authorization] header. *)
Definition bearer (authorization : option string) : option string :=
  match authorization with
  | Some h =>
      if negb (String.eqb h "") && String.prefix "Bearer" h
      then split_space h !! 1%nat
      else None
  | None => None
  end.

(** [protect]: on success [req.user] is the stored account (without the
    hash and the refresh token).  (The catch-all "Token verification
    failed." is for error kinds the token model does not produce.) *)
Definition protect (now : N) (authorization : option string)
    (users : list User.t) : next Profile :=
  match bearer authorization with
  | None => NextError 401 "Access denied. No token provided."
  | Some token =>
      if String.eqb token "" then
        NextError 401 "Access denied. No token provided."
      else
        match Jwt.verify (token_of_string token) (JWT_SECRET cfg) now with
        | inr decoded =>
            match users !! Jwt.id decoded with
            | None => NextError 401 "User not found. Token is invalid."
            | Some user =>
                if negb (User.isActive user) then
                  NextError 401 "User account is deactivated."
                else Next (profile (Jwt.id decoded) user)
            end
        | inl Jwt.TokenExpiredError =>
            NextError 401 "Token expired. Please login again."
        | inl Jwt.JsonWebTokenError =>
            NextError 401 "Invalid token. Please login again."
        end
  end.

(** [authorize(...roles)] *)
Definition authorize (roles : list string) (req_user : option Profile)
    : next unit :=
  match req_user with
  | None => NextError 401 "Access denied. User not authenticated."
  | Some user =>
      if Product.includes roles (User.role_to_string (p_role user)) then Next tt
      else
        NextError 403
          ("Access denied. Required role: " ++ join " or " roles
           ++ ". Your role: " ++ User.role_to_string (p_role user))
  end.

(** [optionalAuth]: [req.user] when the token checks out, nothing
    otherwise; it never rejects. *)
Definition optionalAuth (now : N) (authorization : option string)
    (users : list User.t) : option Profile :=
  match bearer authorization with
  | None => None
  | Some token =>
      if String.eqb token "" then None
      else
        match Jwt.verify (token_of_string token) (JWT_SECRET cfg) now with
        | inr decoded =>
            match users !! Jwt.id decoded with
            | Some user =>
                if User.isActive user then Some (profile (Jwt.id decoded) user)
                else None
            | None => None
            end
        | inl _ => None
        end
  end.

Definition caller_of (user : Profile) : Caller :=
  mkCaller (p_id user) (p_role user).

(** A route behind [protect]: the handler runs with [req.user]; a
    rejected request leaves the handler's collection as it is. *)
Definition private {S A : Type} (now : N) (authorization : option string)
    (users : list User.t) (state : S) (handler : Caller -> S * response A)
    : S * response A :=
  match protect now authorization users with
  | Next user => handler (caller_of user)
  | NextError status message => (state, Fail status message)
  end.

(** A route behind [protect] and [authorize('admin')]. *)
Definition admin_only {S A : Type} (now : N) (authorization : option string)
    (users : list User.t) (state : S) (handler : Caller -> S * response A)
    : S * response A :=
  match protect now authorization users with
  | Next user =>
      match authorize ["admin"] (Some user) with
      | Next _ => handler (caller_of user)
      | NextError status message => (state, Fail status message)
      end
  | NextError status message => (state, Fail status message)
  end.

End Middleware.

(** ** controllers/authController, continued *)

Definition set_password (v : string) (u : User.t) : User.t :=
  User.mk (User.name u) (User.email u) v (User.role u) (User.phone u)
          (User.address u) (User.avatar u) (User.isActive u) (User.lastLogin u)
          (User.refreshToken u) (User.createdAt u) (User.updatedAt u).

(** [changePassword].  The new password is validated as plaintext and
    hashed by the pre-save hook; assigning it always marks the document
    modified.  A caller whose account is gone makes [user.matchPassword]
    throw, which the error middleware answers with 500. *)
Definition changePassword {hasher : Bcrypt} (now : N) (caller : Caller)
    (currentPassword newPassword : string) (users : list User.t)
    : list User.t * response unit :=
  match users !! caller_id caller with
  | None =>
      (users, Fail 500 "Cannot read properties of null (reading 'matchPassword')")
  | Some user =>
      if negb (matchPassword user currentPassword) then
        (users, Fail 400 "Current password is incorrect")
      else
        match (User.validate_name (User.name user)
               ++ User.validate_email (User.email user)
               ++ User.validate_password newPassword
               ++ User.validate_phone (User.phone user))%list with
        | [] =>
            (<[caller_id caller :=
                 User.set_updatedAt now
                   (set_password (bcrypt_hash newPassword) user)]> users,
             Json 200 tt)
        | errors => (users, validation_failure errors)
        end
  end.

(** ** controllers/userController, continued *)

Definition getUser (caller : Caller) (id : ObjectId) (users : list User.t)
    : response Profile :=
  match users !! id with
  | None => Fail 404 "User not found"
  | Some user =>
      if negb (Nat.eqb (caller_id caller) id)
         && negb (User.is_admin (caller_role caller)) then
        Fail 403 "Access denied. You can only view your own profile."
      else Json 200 (profile id user)
  end.

(** The [$group] stage of [getUserStats] with the [|| 0] defaults. *)
Record UserStats : Type := mkUserStats {
  totalUsers : nat;
  activeUsers : nat;
  inactiveUsers : nat;
  adminCount : nat;
  userCount : nat
}.

Definition count {A} (p : A -> bool) (l : list A) : nat :=
  length (List.filter p l).

Definition getUserStats_group (users : list User.t) : UserStats :=
  mkUserStats (length users)
              (count User.isActive users)
              (count (fun u => negb (User.isActive u)) users)
              (count (fun u => User.is_admin (User.role u)) users)
              (count (fun u => negb (User.is_admin (User.role u))) users).

(** ** models/Product and controllers/productController, continued *)

(** [Math.round]: to the nearest integer, halves upwards. *)
Definition Math_round (q : Q) : Z := Qfloor (q + (1 # 2)).

(** The [discountPercentage] virtual. *)
Definition discountPercentage (p : Product.t) : Z :=
  match Product.comparePrice p with
  | None => 0%Z
  | Some comparePrice =>
      if Qeq_bool comparePrice 0 || Qle_bool comparePrice (Product.price p)
      then 0%Z
      else Math_round ((comparePrice - Product.price p) / comparePrice * 100)
  end.

(** [getProduct]: [findOne({ _id, isActive: true })]. *)
Definition getProduct (id : ObjectId) (products : list Product.t)
    : response (ObjectId * Product.t) :=
  match products !! id with
  | Some product =>
      if Product.isActive product then Json 200 (id, product)
      else Fail 404 "Product not found"
  | None => Fail 404 "Product not found"
  end.

(** The counts of [getProductStats]: the document counts of the [$group]
    stage, the two inventory queries and the derived [inStockProducts].
    (Price aggregates and the per-category breakdown are separate
    outputs of the handler and are not part of this record.) *)
Record Inventory : Type := mkInventory {
  activeProducts : nat;
  lowStockProducts : nat;
  outOfStockProducts : nat;
  inStockProducts : Z
}.

Definition getProductStats_inventory (products : list Product.t) : Inventory :=
  let active := count Product.isActive products in
  let low :=
    count (fun p => Product.isActive p
                    && Qle_bool (Product.stock p) 5
                    && negb (Qle_bool (Product.stock p) 0)) products in
  let out :=
    count (fun p => Product.isActive p && Qeq_bool (Product.stock p) 0)
          products in
  mkInventory active low out (Z.of_nat active - Z.of_nat low - Z.of_nat out).

(** ** Notions used to state the properties *)

(** A string without a blank, as every compact JWT is. *)
Fixpoint no_space (s : string) : bool :=
  match s with
  | EmptyString => true
  | String c rest => negb (Ascii.eqb c " "%char) && no_space rest
  end.

(** The number of images marked primary ([primaryImages.length]). *)
Definition primaries (imgs : list Product.Image) : nat :=
  length (List.filter Product.isPrimary imgs).

(** The position of the first primary image. *)
Fixpoint first_primary (imgs : list Product.Image) : option nat :=
  match imgs with
  | [] => None
  | img :: rest =>
      if Product.isPrimary img then Some 0%nat else S <$> first_primary rest
  end.

(** ** Sample data used by the examples below *)

Definition sample_bcrypt : Bcrypt :=
  {| bcrypt_hash := fun p => "$2a$12$" ++ p;
     bcrypt_compare := fun entered hash => String.eqb ("$2a$12$" ++ entered) hash |}.

Definition production : Config :=
  mkConfig (Some "production") "access-secret" 900 "refresh-secret" 2592000.


(** The refresh token issued to account [0] at clock second 1. *)
Definition alice_token : Jwt.Token :=
  generateRefreshToken production 1000 (Jwt.mkPayload 0%nat None None).

Definition alice : User.t :=
  User.mk "Alice" "alice@example.com" "$2a$12$Passw0rd" User.RoleUser None None
          None true (Some 1000) (Some alice_token) 1000 1000.

Definition root : User.t :=
  User.mk "Root" "root@example.com" "$2a$12$Sesame99" User.RoleAdmin None None
          None true (Some 2000) None 2000 2000.

Definition front : Product.Image := Product.mkImage "https://cdn.example.com/front.png" "" true.
Definition back : Product.Image := Product.mkImage "https://cdn.example.com/back.png" "" true.

(** A stored product: price 10, compare-at price 12, three in stock. *)
Definition widget : Product.t :=
  Product.mk "Widget" "A sturdy widget" 10 (Some 12%Q) "other" "Acme" "WID-1" 3
             [front] true false 1 None 3000 3000.

Definition admin_caller : Caller := mkCaller 1 User.RoleAdmin.

(** The account a registration of Bob at clock reading 9000 creates. *)
Definition bob : User.t :=
  User.mk "Bob" "bob@example.com" "$2a$12$Secret12" User.RoleUser None None
          None true (Some 9000)
          (Some (generateRefreshToken production 9000 (Jwt.mkPayload 2 None None)))
          9000 9000.

(** [root] as a login at clock reading 7000 leaves it. *)
Definition root_session : User.t :=
  User.set_updatedAt 7000
    (User.set_lastLogin (Some 7000)
       (User.set_refreshToken
          (Some (tr_refreshToken (generateTokenResponse production 7000 1 root)))
          root)).

(** * Properties *)

(** ** The schema's patterns on sample inputs *)

Example email_re_accepts :
  Regex.test Regex.email_re "alice@example.com" = true
  /\ Regex.test Regex.email_re "a.b-c@shop.co.uk" = true.
Proof. by vm_compute. Qed.

Example email_re_rejects :
  Regex.test Regex.email_re "alice@example" = false
  /\ Regex.test Regex.email_re "a..b@example.com" = false
  /\ Regex.test Regex.email_re "alice@example.info" = false.
Proof. by vm_compute. Qed.

Example phone_re_samples :
  Regex.test Regex.phone_re "+14155552671" = true
  /\ Regex.test Regex.phone_re "0123456" = false
  /\ Regex.test Regex.phone_re "7" = false.
Proof. by vm_compute. Qed.

(** ** Collections *)


Lemma findOne_from_first {A} (p : ObjectId -> A -> bool) (l : list A) (i j : nat) x :
  l !! j = Some x ->
  p (i + j)%nat x = true ->
  (forall j' y, (j' < j)%nat -> l !! j' = Some y -> p (i + j')%nat y = false) ->
  findOne_from p i l = Some ((i + j)%nat, x).
Proof.
  revert i j. induction l as [|y l IH]; intros i j Hj Hp Hbefore; [done|].
  destruct j as [|j]; simpl in *.
  - inversion Hj; subst. rewrite Nat.add_0_r in *. by rewrite Hp.
  - pose proof (Hbefore 0%nat y ltac:(lia) eq_refl) as H0.
    rewrite Nat.add_0_r in H0. rewrite H0.
    rewrite Nat.add_succ_r. apply (IH (S i) j Hj).
    + by rewrite Nat.add_succ_r in Hp.
    + intros j' z Hlt Hz. specialize (Hbefore (S j') z ltac:(lia) Hz).
      by rewrite Nat.add_succ_r in Hbefore.
Qed.

Lemma findOne_from_Some {A} (p : ObjectId -> A -> bool) (l : list A) (i k : nat) x :
  findOne_from p i l = Some (k, x) ->
  exists j, k = (i + j)%nat /\ l !! j = Some x /\ p k x = true.
Proof.
  revert i. induction l as [|y l IH]; intros i H; simpl in H; [done|].
  destruct (p i y) eqn:Hp.
  - inversion H; subst. exists 0%nat. by rewrite Nat.add_0_r.
  - destruct (IH _ H) as (j & -> & Hj & Hpj).
    exists (S j). by rewrite Nat.add_succ_r.
Qed.


Lemma findOne_Some {A} (p : A -> bool) (l : list A) k x :
  findOne p l = Some (k, x) -> l !! k = Some x /\ p x = true.
Proof.
  intros H. apply findOne_from_Some in H as (j & -> & Hj & Hp). done.
Qed.

(** With a unique key, [findOne] on that key returns the one document
    that carries it. *)
Lemma findOne_unique_key {A} (key : A -> string) (l : list A) (i : nat) x :
  NoDup (map key l) ->
  l !! i = Some x ->
  findOne (fun y => String.eqb (key y) (key x)) l = Some (i, x).
Proof.
  intros Hnd Hi. apply (findOne_from_first _ l 0 i x Hi).
  - apply String.eqb_refl.
  - intros j y Hlt Hj. apply String.eqb_neq. intros Heq.
    assert (j = i); [|lia].
    eapply (NoDup_lookup (key <$> l)); [done| |].
    + rewrite list_lookup_fmap, Hj. done.
    + rewrite list_lookup_fmap, Hi. simpl. by rewrite Heq.
Qed.

Lemma findByIdAndUpdate_lookup {A} (stamp : N -> A -> A) now i update
    (docs : list A) doc :
  docs !! i = Some doc ->
  findByIdAndUpdate stamp now i update docs !! i = Some (stamp now (update doc)).
Proof.
  intros H. unfold findByIdAndUpdate. rewrite H.
  apply list_lookup_insert_eq. by eapply lookup_lt_Some.
Qed.

Lemma findByIdAndUpdate_other {A} (stamp : N -> A -> A) now i j update
    (docs : list A) :
  i <> j ->
  findByIdAndUpdate stamp now i update docs !! j = docs !! j.
Proof.
  intros H. unfold findByIdAndUpdate.
  destruct (docs !! i); [|done]. by apply list_lookup_insert_ne.
Qed.

Lemma User_save_lookup now i u (users users' : list User.t) saved :
  User_save now i u users = inr (saved, users') ->
  is_Some (users !! i) ->
  users' !! i = Some saved /\ (saved = u \/ saved = User.set_updatedAt now u).
Proof.
  unfold User_save. destruct (User.validate u); [|done].
  intros [= <- <-] [old Hold]. split.
  - apply list_lookup_insert_eq. by eapply lookup_lt_Some.
  - case_decide; auto.
Qed.

Lemma User_save_other now i j u (users users' : list User.t) saved :
  User_save now i u users = inr (saved, users') ->
  i <> j -> users' !! j = users !! j.
Proof.
  unfold User_save. destruct (User.validate u); [|done].
  intros [= <- <-] Hne. by apply list_lookup_insert_ne.
Qed.

(** ** Refresh tokens *)

Lemma verify_payload token secret now decoded :
  Jwt.verify token secret now = inr decoded ->
  exists iat exp, token = Jwt.Signed secret decoded iat exp.
Proof.
  destruct token as [key p iat exp|raw]; simpl; [|done].
  destruct (String.eqb key secret) eqn:Hk; simpl; [|done].
  destruct (exp <=? now / 1000); [done|].
  intros [= <-]. apply String.eqb_eq in Hk as ->. eauto.
Qed.

Lemma set_updatedAt_refreshToken now u :
  User.refreshToken (User.set_updatedAt now u) = User.refreshToken u.
Proof. done. Qed.

(** A token that is not the one stored on the account it names is turned
    down, whatever the clock says. *)
Lemma refresh_rejects_unmatched cfg now token (users : list User.t) :
  falsy (Some token) = false ->
  (forall decoded u,
      Jwt.verify token (JWT_REFRESH_SECRET cfg) now = inr decoded ->
      users !! Jwt.id decoded = Some u ->
      User.refreshToken u <> Some token) ->
  refreshToken cfg now (Some token) users
  = (users, Fail 401 "Invalid refresh token").
Proof.
  intros Hfalsy Hstored. unfold refreshToken, findByRefreshToken.
  rewrite Hfalsy.
  destruct (Jwt.verify token (JWT_REFRESH_SECRET cfg) now) as [e|decoded] eqn:Hv;
    [done|].
  destruct (users !! Jwt.id decoded) as [u|] eqn:Hu; [|done].
  specialize (Hstored decoded u eq_refl Hu).
  by rewrite bool_decide_eq_false_2.
Qed.

(** What a successful refresh did. *)
Lemma refresh_success_inv cfg now token (users users' : list User.t) tr :
  refreshToken cfg now (Some token) users = (users', Json 200 tr) ->
  exists i u,
    falsy (Some token) = false
    /\ findByRefreshToken cfg now token users = Some (i, u)
    /\ User.refreshToken u = Some token
    /\ User.isActive u = true
    /\ tr = generateTokenResponse cfg now i u
    /\ exists saved,
         User_save now i
           (User.set_refreshToken (Some (tr_refreshToken tr)) u) users
         = inr (saved, users').
Proof.
  unfold refreshToken. destruct (falsy (Some token)) eqn:Hfalsy; [done|].
  destruct (findByRefreshToken cfg now token users) as [[i u]|] eqn:Hfind;
    [|done].
  destruct (bool_decide (User.refreshToken u = Some token)) eqn:Hmatch;
    simpl; [|done].
  destruct (User.isActive u) eqn:Hactive; simpl; [|done].
  destruct (User_save _ _ _ _) as [errors|[saved users2]] eqn:Hsave; [done|].
  intros [= <- <-]. exists i, u.
  apply bool_decide_eq_true_1 in Hmatch. eauto 10.
Qed.

Lemma findByRefreshToken_Some cfg now token (users : list User.t) i u :
  findByRefreshToken cfg now token users = Some (i, u) ->
  users !! i = Some u
  /\ exists decoded,
       Jwt.verify token (JWT_REFRESH_SECRET cfg) now = inr decoded
       /\ Jwt.id decoded = i.
Proof.
  unfold findByRefreshToken.
  destruct (Jwt.verify _ _ _) as [e|decoded] eqn:Hv; [done|].
  destruct (users !! Jwt.id decoded) as [u0|] eqn:Hu; [|done].
  intros [= <- <-]. eauto.
Qed.

(** C1 (as the code has it).  A successful refresh stores the newly issued
    refresh token on the account the presented token names.  Whenever the
    new token differs from the presented one, every later refresh call with
    the presented token on the resulting collection fails with 401
    "Invalid refresh token"; and the new token does differ as soon as the
    presented token was issued in another clock second than this refresh. *)
Theorem refresh_rotation cfg now token (users users' : list User.t) tr :
  refreshToken cfg now (Some token) users = (users', Json 200 tr) ->
  (exists i u u',
      findByRefreshToken cfg now token users = Some (i, u)
      /\ users' !! i = Some u'
      /\ User.refreshToken u' = Some (tr_refreshToken tr))
  /\ (tr_refreshToken tr <> token ->
      forall now',
        refreshToken cfg now' (Some token) users'
        = (users', Fail 401 "Invalid refresh token"))
  /\ (forall secret payload iat exp,
        token = Jwt.Signed secret payload iat exp ->
        iat <> now / 1000 ->
        tr_refreshToken tr <> token).
Proof.
  intros Hok.
  destruct (refresh_success_inv _ _ _ _ _ _ Hok)
    as (i & u & Hfalsy & Hfind & Hstored & Hactive & Htr & saved & Hsave).
  destruct (findByRefreshToken_Some _ _ _ _ _ _ Hfind)
    as (Hu & decoded & Hverify & Hid).
  destruct (User_save_lookup _ _ _ _ _ _ Hsave (mk_is_Some _ _ Hu))
    as (Hu' & Hshape).
  assert (Hnew : User.refreshToken saved = Some (tr_refreshToken tr)).
  { destruct Hshape as [-> | ->]; done. }
  split; [by exists i, u, saved|]. split.
  - intros Hdiff now'. apply refresh_rejects_unmatched; [done|].
    intros decoded' v Hverify' Hv.
    destruct (verify_payload _ _ _ _ Hverify) as (iat & exp & Htok).
    destruct (verify_payload _ _ _ _ Hverify') as (iat' & exp' & Htok').
    assert (decoded' = decoded) as -> by congruence.
    rewrite Hid, Hu' in Hv. injection Hv as <-.
    rewrite Hnew. congruence.
  - intros secret payload iat exp -> Hiat.
    rewrite Htr. simpl. unfold generateRefreshToken, Jwt.sign. congruence.
Qed.

(** A concrete refresh, one second after the token was issued. *)
Lemma refresh_rotation_witness :
  refreshToken production 2500 (Some alice_token) [alice]
  = ([User.set_updatedAt 2500
        (User.set_refreshToken
           (Some (generateRefreshToken production 2500 (Jwt.mkPayload 0%nat None None)))
           alice)],
     Json 200 (generateTokenResponse production 2500 0%nat alice))
  /\ refreshToken production 9000 (Some alice_token)
       [User.set_updatedAt 2500
          (User.set_refreshToken
             (Some (generateRefreshToken production 2500 (Jwt.mkPayload 0%nat None None)))
             alice)]
     = ([User.set_updatedAt 2500
           (User.set_refreshToken
              (Some (generateRefreshToken production 2500 (Jwt.mkPayload 0%nat None None)))
              alice)],
        Fail 401 "Invalid refresh token").
Proof.
  assert (H : refreshToken production 2500 (Some alice_token) [alice]
              = ([User.set_updatedAt 2500
                    (User.set_refreshToken
                       (Some (generateRefreshToken production 2500
                                (Jwt.mkPayload 0%nat None None)))
                       alice)],
                 Json 200 (generateTokenResponse production 2500 0%nat alice)))
    by (vm_compute; reflexivity).
  split; [exact H|].
  apply (proj1 (proj2 (refresh_rotation _ _ _ _ _ _ H))).
  vm_compute. discriminate.
Defined.

(** C1 as stated fails: a refresh within the clock second in which the
    presented token was issued signs the very same token again, so the
    "first" token is still the stored one and the next refresh with it
    succeeds. *)
Lemma refresh_same_second_keeps_token :
  let first := refreshToken production 1500 (Some alice_token) [alice] in
  snd first = Json 200 (generateTokenResponse production 1500 0%nat alice)
  /\ tr_refreshToken (generateTokenResponse production 1500 0%nat alice) = alice_token
  /\ snd (refreshToken production 1900 (Some alice_token) (fst first))
     = Json 200 (generateTokenResponse production 1900 0%nat alice).
Proof. vm_compute. done. Qed.

(** ** Deactivation *)

Lemma toggleUserStatus_off_inv now caller id (users users' : list User.t) data :
  toggleUserStatus now caller id (JBool false) users = (users', Json 200 data) ->
  exists u', users' !! id = Some u'
             /\ User.isActive u' = false /\ User.refreshToken u' = None.
Proof.
  unfold toggleUserStatus.
  destruct (users !! id) as [user|] eqn:Hu; [|done].
  destruct (caller_id caller =? id)%nat; [done|]. simpl.
  destruct (User_save _ _ _ _) as [errors|[saved users2]] eqn:Hsave; [done|].
  intros [= <- _].
  destruct (User_save_lookup _ _ _ _ _ _ Hsave (mk_is_Some _ _ Hu))
    as (Hu' & [-> | ->]); eauto.
Qed.





(** ** Self-targeting operations *)

(** C9.  An administrator who targets the own account is turned away by
    both the soft delete and the status toggle with status 400, and the
    collection is left as it was. *)
Theorem admin_cannot_target_self now caller (users : list User.t) u body_isActive :
  caller_role caller = User.RoleAdmin ->
  users !! caller_id caller = Some u ->
  deleteUser now caller (caller_id caller) users
  = (users, Fail 400 "Admin cannot delete their own account")
  /\ exists message,
      toggleUserStatus now caller (caller_id caller) body_isActive users
      = (users, Fail 400 message).
Proof.
  intros Hrole Hu. split.
  - unfold deleteUser. rewrite Hu, Hrole, Nat.eqb_refl. done.
  - unfold toggleUserStatus. rewrite Hu, Nat.eqb_refl.
    destruct body_isActive; eauto.
Qed.

Lemma admin_cannot_target_self_witness :
  deleteUser 5000 (mkCaller 1 User.RoleAdmin) 1 [alice; root]
  = ([alice; root], Fail 400 "Admin cannot delete their own account")
  /\ exists message,
      toggleUserStatus 5000 (mkCaller 1 User.RoleAdmin) 1 (JBool false)
                       [alice; root]
      = ([alice; root], Fail 400 message).
Proof.
  apply (admin_cannot_target_self 5000 (mkCaller 1 User.RoleAdmin)
           [alice; root] root (JBool false)); reflexivity.
Defined.

(** ** Login *)



(** ** Registration *)

Lemma findOne_from_None_inv {A} (p : ObjectId -> A -> bool) (l : list A) (i : nat) :
  findOne_from p i l = None ->
  forall j x, l !! j = Some x -> p (i + j)%nat x = false.
Proof.
  revert i. induction l as [|y l IH]; intros i H j x Hj; [done|].
  simpl in H. destruct (p i y) eqn:Hp; [done|].
  destruct j as [|j]; simpl in Hj.
  - injection Hj as <-. by rewrite Nat.add_0_r.
  - rewrite Nat.add_succ_r. by apply (IH (S i)).
Qed.







(** ** Pagination *)






(** The boundaries the specification singles out. *)
Example pagination_first_page :
  paginate (Num 1) (Num 10) 25 = mkPagination (Num 3) 25 true false.
Proof. reflexivity. Qed.

Example pagination_last_page :
  paginate (Num 3) (Num 10) 25 = mkPagination (Num 3) 25 false true.
Proof. reflexivity. Qed.

Example pagination_empty :
  paginate (Num 1) (Num 10) 0 = mkPagination (Num 0) 0 false false.
Proof. reflexivity. Qed.

(** Outside the theorem's range: a page size of zero, which the user
    listing does not filter out, makes [totalPages] infinite. *)
Example pagination_zero_limit :
  getAllUsers_pagination (Some (Num 1)) (Some (Num 0)) 25
  = mkPagination PInf 25 true false.
Proof. reflexivity. Qed.

(** ** Stock updates *)






Lemma Product_save_lookup now i p (products products' : list Product.t) saved :
  Product_save now i p products = inr (saved, products') ->
  is_Some (products !! i) ->
  products' !! i = Some saved
  /\ (forall j, j <> i -> products' !! j = products !! j)
  /\ (saved = Product.pre_save p
      \/ saved = Product.set_updatedAt now (Product.pre_save p)).
Proof.
  unfold Product_save. destruct (Product.validate p); [|done].
  intros [= <- <-] [old Hold]. split; [|split].
  - apply list_lookup_insert_eq. by eapply lookup_lt_Some.
  - intros j Hj. by apply list_lookup_insert_ne.
  - case_decide; auto.
Qed.

Lemma Product_save_valid now i p (products : list Product.t) :
  Product.validate p = [] ->
  exists saved products', Product_save now i p products = inr (saved, products').
Proof. intros H. unfold Product_save. rewrite H. eauto. Qed.



Example subtract_floors_at_zero : newStock OpSubtract 3 10 = 0%Q.
Proof. reflexivity. Qed.

Example updateStock_subtract_example :
  Product.stock <$>
    fst (updateStock 8000 admin_caller 0 (JNum 10) (JStr "subtract") [widget])
    !! 0%nat
  = Some 0%Q.
Proof. reflexivity. Qed.

(** ** Primary images *)

Lemma findIndex_from_first_primary i imgs :
  Product.findIndex_from i imgs
  = match first_primary imgs with
    | Some k => (i + Z.of_nat k)%Z
    | None => (-1)%Z
    end.
Proof.
  revert i. induction imgs as [|img rest IH]; intros i; simpl; [done|].
  destruct (Product.isPrimary img); simpl; [lia|].
  rewrite IH. destruct (first_primary rest); simpl; lia.
Qed.

Lemma findIndex_test index k imgs :
  first_primary imgs = Some k ->
  Z.eqb (Z.of_nat index) (Product.findIndex_isPrimary imgs) = Nat.eqb index k.
Proof.
  intros H. unfold Product.findIndex_isPrimary.
  rewrite findIndex_from_first_primary, H.
  destruct (Nat.eqb_spec index k), (Z.eqb_spec (Z.of_nat index) (0 + Z.of_nat k));
    try done; lia.
Qed.

Lemma first_primary_lt imgs k : first_primary imgs = Some k -> (k < length imgs)%nat.
Proof.
  revert k. induction imgs as [|img rest IH]; intros k; simpl; [done|].
  destruct (Product.isPrimary img).
  - intros [= <-]. lia.
  - destruct (first_primary rest) as [k'|]; simpl; [|done].
    intros [= <-]. specialize (IH k' eq_refl). lia.
Qed.

Lemma first_primary_None imgs : first_primary imgs = None <-> primaries imgs = 0%nat.
Proof.
  unfold primaries. induction imgs as [|img rest IH]; simpl; [done|].
  destruct (Product.isPrimary img); simpl; [done|].
  destruct (first_primary rest); simpl; split; try done; intros H.
  - by apply IH in H.
  - by apply IH.
Qed.

(** One step of the loop leaves the first primary position where it was. *)
Lemma first_primary_step imgs index k img :
  first_primary imgs = Some k ->
  imgs !! index = Some img ->
  first_primary (<[index := Product.set_isPrimary (Nat.eqb index k) img]> imgs)
  = Some k.
Proof.
  revert index k. induction imgs as [|x rest IH]; intros index k Hk Hi; [done|].
  simpl in Hk. destruct (Product.isPrimary x) eqn:Hx.
  - injection Hk as <-. destruct index as [|index]; simpl in *.
    + done.
    + by rewrite Hx.
  - destruct (first_primary rest) as [k'|] eqn:Hrest; [|done].
    injection Hk as <-. destruct index as [|index]; simpl in *.
    + by rewrite Hrest.
    + rewrite Hx. by rewrite (IH index k' eq_refl Hi).
Qed.

(** The loop visits [todo] positions from [index] on and, at each, keeps
    the flag only at the first primary position of the array. *)
Lemma forEach_mark_lookup todo index imgs k j :
  first_primary imgs = Some k ->
  Product.forEach_mark index todo imgs !! j
  = if bool_decide (index <= j < index + todo)%nat
    then Product.set_isPrimary (Nat.eqb j k) <$> imgs !! j
    else imgs !! j.
Proof.
  revert index imgs. induction todo as [|todo IH]; intros index imgs Hk; simpl.
  - rewrite bool_decide_eq_false_2; [done|lia].
  - destruct (imgs !! index) as [img|] eqn:Hi.
    + rewrite (findIndex_test index k imgs Hk).
      rewrite (IH (S index) _ (first_primary_step _ _ _ _ Hk Hi)).
      destruct (decide (j = index)) as [->|Hne].
      * rewrite bool_decide_eq_false_2 by lia.
        rewrite bool_decide_eq_true_2 by lia.
        rewrite list_lookup_insert_eq by (by eapply lookup_lt_Some).
        by rewrite Hi.
      * rewrite list_lookup_insert_ne by done.
        destruct (decide (S index <= j < S index + todo)%nat).
        -- rewrite !bool_decide_eq_true_2 by lia. done.
        -- rewrite !bool_decide_eq_false_2 by lia. done.
    + rewrite (IH (S index) _ Hk).
      destruct (decide (j = index)) as [->|Hne].
      * rewrite bool_decide_eq_false_2 by lia.
        rewrite Hi. by destruct (bool_decide _).
      * destruct (decide (S index <= j < S index + todo)%nat).
        -- rewrite !bool_decide_eq_true_2 by lia. done.
        -- rewrite !bool_decide_eq_false_2 by lia. done.
Qed.

Lemma primaries_none_marked (imgs marked : list Product.Image) :
  (forall j, marked !! j = Product.set_isPrimary false <$> imgs !! j) ->
  primaries marked = 0%nat.
Proof.
  revert marked. induction imgs as [|img rest IH]; intros marked H.
  - destruct marked as [|m ?]; [done|]. by specialize (H 0%nat).
  - destruct marked as [|m marked]; [by specialize (H 0%nat)|].
    pose proof (H 0%nat) as H0. simpl in H0. injection H0 as ->.
    unfold primaries. simpl. apply IH. intros j. apply (H (S j)).
Qed.

Lemma primaries_one_marked (imgs marked : list Product.Image) k :
  (k < length imgs)%nat ->
  (forall j, marked !! j = Product.set_isPrimary (Nat.eqb j k) <$> imgs !! j) ->
  primaries marked = 1%nat.
Proof.
  revert marked k. induction imgs as [|img rest IH]; intros marked k Hk H;
    [simpl in Hk; lia|].
  destruct marked as [|m marked]; [by specialize (H 0%nat)|].
  pose proof (H 0%nat) as H0. simpl in H0. injection H0 as ->.
  unfold primaries. simpl. destruct k as [|k]; simpl.
  - f_equal. apply (primaries_none_marked rest). intros j. apply (H (S j)).
  - apply (IH marked k); [simpl in Hk; lia|]. intros j. apply (H (S j)).
Qed.

(** The save path of C6: after the pre-save middleware a non-empty image
    list has exactly one primary image, and it sits where the first
    primary image of the input was (at the front when there was none);
    nothing but the flags is touched. *)
Lemma pre_save_images_one_primary (imgs : list Product.Image) :
  imgs <> [] ->
  primaries (Product.pre_save_images imgs) = 1%nat
  /\ first_primary (Product.pre_save_images imgs)
     = Some (default 0%nat (first_primary imgs))
  /\ map Product.url (Product.pre_save_images imgs) = map Product.url imgs.
Proof.
  intros Hne. unfold Product.pre_save_images.
  destruct imgs as [|img rest]; [done|].
  change (0 <? length (img :: rest))%nat with true. cbv iota.
  fold (primaries (img :: rest)).
  destruct (first_primary (img :: rest)) as [k|] eqn:Hk.
  - assert (primaries (img :: rest) <> 0%nat) as Hsome.
    { intros H0. apply first_primary_None in H0. congruence. }
    rewrite (proj2 (Nat.eqb_neq _ _) Hsome).
    destruct (1 <? primaries (img :: rest))%nat eqn:Hmany.
    + set (marked := Product.forEach_mark 0 (length (img :: rest)) (img :: rest)).
      assert (Hmarked : forall j,
                 marked !! j
                 = Product.set_isPrimary (Nat.eqb j k) <$> (img :: rest) !! j).
      { intros j. unfold marked. rewrite (forEach_mark_lookup _ _ _ k j Hk).
        destruct (decide (j < length (img :: rest))%nat).
        - rewrite bool_decide_eq_true_2 by lia. done.
        - rewrite bool_decide_eq_false_2 by lia.
          rewrite lookup_ge_None_2 by lia. done. }
      split; [|split].
      * apply (primaries_one_marked (img :: rest) marked k); [|done].
        by apply first_primary_lt.
      * simpl. clear -Hmarked Hk. apply first_primary_lt in Hk.
        revert Hmarked Hk. generalize (img :: rest) as l. revert k.
        induction marked as [|m marked IH]; intros k l Hmarked Hk.
        -- destruct l; [simpl in Hk; lia|]. by specialize (Hmarked 0%nat).
        -- destruct l as [|x l]; [simpl in Hk; lia|].
           pose proof (Hmarked 0%nat) as H0. simpl in H0. injection H0 as ->.
           simpl. destruct k as [|k]; simpl; [done|].
           rewrite (IH k l); [done| |simpl in Hk; lia].
           intros j. apply (Hmarked (S j)).
      * apply list_eq. intros j. rewrite !list_lookup_fmap, Hmarked.
        by destruct ((img :: rest) !! j).
    + assert (primaries (img :: rest) = 1%nat) as Hone.
      { apply Nat.ltb_ge in Hmany. lia. }
      by rewrite Hk.
  - pose proof (proj1 (first_primary_None _) Hk) as Hzero.
    rewrite Hzero. simpl.
    unfold primaries in *. simpl in *.
    destruct (Product.isPrimary img); [done|]. simpl in *.
    by rewrite Hzero.
Qed.

(** When no image is marked primary, the [primaryImage] virtual falls
    back to the first image. *)
Lemma primaryImage_fallback (p : Product.t) first rest :
  Product.images p = first :: rest ->
  primaries (Product.images p) = 0%nat ->
  Product.primaryImage p = Some (Product.url first).
Proof.
  intros Himages Hnone. unfold Product.primaryImage.
  destruct (List.find Product.isPrimary (Product.images p)) as [img|] eqn:Hfind.
  - apply find_some in Hfind as [Hin Hprimary].
    assert (In img (List.filter Product.isPrimary (Product.images p)))
      by (by apply filter_In).
    unfold primaries in Hnone. apply length_zero_iff_nil in Hnone.
    rewrite Hnone in *. done.
  - by rewrite Himages.
Qed.

(** Every product written by [save] has exactly one primary image as
    soon as it has an image. *)
Lemma Product_save_one_primary now i p (products products' : list Product.t) saved :
  Product_save now i p products = inr (saved, products') ->
  Product.images p <> [] ->
  primaries (Product.images saved) = 1%nat.
Proof.
  unfold Product_save. destruct (Product.validate p); [|done].
  intros [= <- _] Hne.
  destruct (pre_save_images_one_primary _ Hne) as [Hone _].
  by case_decide.
Qed.

(** C6: the update path.  [updateProduct] writes the image list through
    [findByIdAndUpdate], which runs no save middleware: an update that
    marks two images primary is answered 200 and both stay primary in the
    stored product. *)
Theorem updateProduct_keeps_two_primaries :
  let body :=
    mkUpdateProductBody None None None None None None None None
      (Some [mkImageInput (Product.url front) None (Some true);
             mkImageInput (Product.url back) None (Some true)])
      None None in
  let result := updateProduct 8000 admin_caller 0 body [widget] in
  status_of (snd result) = 200%nat
  /\ Product.images <$> fst result !! 0%nat = Some [front; back]
  /\ primaries [front; back] = 2%nat.
Proof. vm_compute. done. Qed.

(** ** Compare-at price *)

Lemma validate_comparePrice_ok price c :
  Product.validate_comparePrice (Some price) (Some c) = [] ->
  (c == 0)%Q \/ (price <= c)%Q.
Proof.
  unfold Product.validate_comparePrice, Product.comparePrice_validator.
  destruct (Qnegative c); [done|].
  destruct (Qeq_bool c 0) eqn:Hzero; simpl.
  - intros _. left. by apply Qeq_bool_eq.
  - destruct (Qle_bool price c) eqn:Hle; [|done].
    intros _. right. by apply Qle_bool_iff.
Qed.

Lemma validate_comparePrice_part (p : Product.t) :
  Product.validate p = [] ->
  Product.validate_comparePrice (Some (Product.price p)) (Product.comparePrice p)
  = [].
Proof.
  unfold Product.validate. intros H.
  repeat (apply app_eq_nil in H as [? H]). done.
Qed.

Lemma valid_comparePrice (p : Product.t) c :
  Product.validate p = [] ->
  Product.comparePrice p = Some c ->
  (c == 0)%Q \/ (Product.price p <= c)%Q.
Proof.
  intros Hvalid Hc. apply validate_comparePrice_part in Hvalid.
  rewrite Hc in Hvalid. by apply validate_comparePrice_ok.
Qed.

Lemma Product_save_inv now i p (products products' : list Product.t) saved :
  Product_save now i p products = inr (saved, products') ->
  Product.validate p = []
  /\ (saved = Product.pre_save p
      \/ saved = Product.set_updatedAt now (Product.pre_save p)).
Proof.
  unfold Product_save. destruct (Product.validate p); [|done].
  intros [= <- _]. split; [done|]. case_decide; auto.
Qed.

(** C7 (as the code has it).  Creating a product whose compare-at price
    is present, not zero and strictly below the selling price fails (400
    from validation, or 409 when the SKU is taken) and stores nothing;
    every product that [createProduct] or a later [save] does store has a
    compare-at price that is absent, zero, or at least the price. *)
Theorem comparePrice_checked_on_save now caller body (products : list Product.t) :
  (forall c,
      cb_comparePrice body = Some c ->
      ~ (c == 0)%Q ->
      (c < cb_price body)%Q ->
      exists status message,
        createProduct now caller body products = (products, Fail status message)
        /\ (status = 400 \/ status = 409)%nat)
  /\ (forall i product products' c,
        createProduct now caller body products
        = (products', Json 201 (i, product)) ->
        Product.comparePrice product = Some c ->
        products' !! i = Some product
        /\ ((c == 0)%Q \/ (Product.price product <= c)%Q))
  /\ (forall i p saved products' c,
        Product_save now i p products = inr (saved, products') ->
        Product.comparePrice saved = Some c ->
        (c == 0)%Q \/ (Product.price saved <= c)%Q).
Proof.
  split; [|split].
  - intros c Hc Hnonzero Hbelow. unfold createProduct.
    destruct (findOne _ products); [eauto 6|].
    unfold Product_create.
    destruct (Product.validate _) as [|e errors] eqn:Hvalid; [|eauto 6].
    exfalso. eapply valid_comparePrice in Hvalid; [|exact Hc].
    simpl in Hvalid. destruct Hvalid as [Hzero | Hle]; [done|].
    by apply Qle_not_lt in Hle.
  - intros i product products' c. unfold createProduct.
    destruct (findOne _ products); [done|].
    unfold Product_create.
    destruct (Product.validate _) as [|e errors] eqn:Hvalid; [|done].
    intros [= <- <- <-] Hc. split.
    + rewrite lookup_app_r by done. by rewrite Nat.sub_diag.
    + by apply (valid_comparePrice _ c Hvalid).
  - intros i p saved products' c Hsave Hc.
    destruct (Product_save_inv _ _ _ _ _ _ Hsave) as [Hvalid [-> | ->]];
      by apply (valid_comparePrice p c Hvalid).
Qed.

(** A product offered at 10 with a compare-at price of 8. *)
Lemma comparePrice_checked_on_save_witness :
  exists status message,
    createProduct 8000 admin_caller
      (mkCreateProductBody "Gadget" "A handy gadget" 10 (Some 8%Q) "other"
         "Acme" "gad-1" 5
         [mkImageInput "https://cdn.example.com/gadget.png" None None] None)
      [widget]
    = ([widget], Fail status message)
    /\ (status = 400 \/ status = 409)%nat.
Proof.
  apply (proj1 (comparePrice_checked_on_save 8000 admin_caller
                  (mkCreateProductBody "Gadget" "A handy gadget" 10 (Some 8%Q)
                     "other" "Acme" "gad-1" 5
                     [mkImageInput "https://cdn.example.com/gadget.png" None None]
                     None) [widget]) 8%Q).
  - reflexivity.
  - discriminate.
  - reflexivity.
Defined.

(** C7 as stated fails: the validator lets every falsy value through, so
    a compare-at price of 0 is stored below a selling price of 10. *)
Lemma createProduct_accepts_zero_comparePrice :
  let result :=
    createProduct 8000 admin_caller
      (mkCreateProductBody "Gadget" "A handy gadget" 10 (Some 0%Q) "other"
         "Acme" "gad-1" 5
         [mkImageInput "https://cdn.example.com/gadget.png" None None] None)
      [widget] in
  status_of (snd result) = 201%nat
  /\ (fun p => (Product.price p, Product.comparePrice p)) <$> fst result !! 1%nat
     = Some (10%Q, Some 0%Q)
  /\ (0 < 10)%Q.
Proof. vm_compute. done. Qed.

(** The update path of C7: update validators look at the paths in the
    update only, so raising the price over a stored compare-at price is
    answered 200 and stored. *)
Lemma updateProduct_price_over_comparePrice :
  let body :=
    mkUpdateProductBody None None (Some 20%Q) None None None None None None
                        None None in
  let result := updateProduct 8000 admin_caller 0 body [widget] in
  status_of (snd result) = 200%nat
  /\ (fun p => (Product.price p, Product.comparePrice p)) <$> fst result !! 0%nat
     = Some (20%Q, Some 12%Q).
Proof. vm_compute. done. Qed.

(** ** Profile updates *)

Lemma updateData_of_user caller body :
  caller_role caller = User.RoleUser ->
  updateData_of caller body
  = mkUserUpdate (body_name body) (body_phone body) (body_address body)
                 (body_avatar body) None None.
Proof. intros H. unfold updateData_of. by rewrite H. Qed.

Lemma validate_update_plain name phone address avatar :
  validate_update (mkUserUpdate name phone address avatar None None)
  = (from_option User.validate_name [] name ++ User.validate_phone phone)%list.
Proof. unfold validate_update. simpl. by destruct phone. Qed.

(** Without [role] and [isActive] in the update, only the four profile
    paths of the document change. *)
Lemma apply_update_frame name phone address avatar (u : User.t) :
  let u' := apply_update (mkUserUpdate name phone address avatar None None) u in
  u' = User.mk (User.name u') (User.email u) (User.password u) (User.role u)
               (User.phone u') (User.address u') (User.avatar u')
               (User.isActive u) (User.lastLogin u) (User.refreshToken u)
               (User.createdAt u) (User.updatedAt u).
Proof.
  unfold apply_update. simpl.
  destruct name, phone, address, avatar; destruct u; reflexivity.
Qed.

(** Closes the frame goal of an account the call did not write. *)
Ltac left_as_it_was u :=
  exists u; simpl; split; [done|]; split; [by destruct u|done].

(** C10 (as the code has it).  For a caller who is not an administrator,
    [role] and [isActive] in the payload are ignored: the call is answered
    and the collection is left exactly as for the same payload without
    them; it succeeds on the caller's own account whenever the name and
    phone pass their validators; and afterwards every stored account
    differs from what it was at most in [name], [phone], [address],
    [avatar] and the [updatedAt] stamp, accounts other than the target not
    at all. *)
Theorem updateUser_ignores_role_and_isActive now caller id body
    (users : list User.t) :
  caller_role caller = User.RoleUser ->
  let plain :=
    mkUpdateUserBody (body_name body) (body_phone body) (body_address body)
                     (body_avatar body) None None in
  updateUser now caller id body users = updateUser now caller id plain users
  /\ (forall u,
        users !! id = Some u ->
        caller_id caller = id ->
        from_option User.validate_name [] (body_name body) = [] ->
        User.validate_phone (body_phone body) = [] ->
        exists sent, snd (updateUser now caller id body users) = Json 200 sent)
  /\ (forall j u,
        users !! j = Some u ->
        exists u',
          fst (updateUser now caller id body users) !! j = Some u'
          /\ u' = User.mk (User.name u') (User.email u) (User.password u)
                          (User.role u) (User.phone u') (User.address u')
                          (User.avatar u') (User.isActive u) (User.lastLogin u)
                          (User.refreshToken u) (User.createdAt u)
                          (User.updatedAt u')
          /\ (j <> id -> u' = u)).
Proof.
  intros Hrole plain. split; [|split].
  - unfold updateUser. by rewrite !updateData_of_user.
  - intros u Hu Hown Hname Hphone. unfold updateUser.
    rewrite Hu, Hown, Nat.eqb_refl, updateData_of_user by done. simpl.
    rewrite validate_update_plain, Hname, Hphone. simpl. eauto.
  - intros j u Hj. unfold updateUser.
    destruct (users !! id) as [target|] eqn:Htarget.
    2:{ left_as_it_was u. }
    destruct (_ && _); [left_as_it_was u|].
    rewrite updateData_of_user by done.
    destruct (validate_update _); [|left_as_it_was u].
    simpl. destruct (decide (j = id)) as [->|Hne].
    + rewrite Htarget in Hj. injection Hj as ->.
      eexists. split; [by apply findByIdAndUpdate_lookup|].
      split; [|done].
      pose proof (apply_update_frame (body_name body) (body_phone body)
                    (body_address body) (body_avatar body) u) as Hframe.
      simpl in Hframe. rewrite Hframe at 1. reflexivity.
    + exists u. rewrite findByIdAndUpdate_other by done.
      split; [done|]. split; [by destruct u|done].
Qed.

(** A standard user who sends a new name together with [role] and
    [isActive]. *)
Lemma updateUser_ignores_role_and_isActive_witness :
  updateUser 9000 (mkCaller 0 User.RoleUser) 0
    (mkUpdateUserBody (Some "Alicia") None None None (Some "admin") (Some false))
    [alice; root]
  = updateUser 9000 (mkCaller 0 User.RoleUser) 0
      (mkUpdateUserBody (Some "Alicia") None None None None None)
      [alice; root].
Proof.
  apply (proj1 (updateUser_ignores_role_and_isActive 9000
                  (mkCaller 0 User.RoleUser) 0
                  (mkUpdateUserBody (Some "Alicia") None None None
                                    (Some "admin") (Some false))
                  [alice; root] eq_refl)).
Defined.

(** C10 as stated fails in one respect: the schema keeps timestamps, so
    the update also moves [updatedAt], a field outside name, phone,
    address and avatar.  Role and active flag stay as they were. *)
Lemma updateUser_moves_updatedAt :
  let result :=
    updateUser 9000 (mkCaller 0 User.RoleUser) 0
      (mkUpdateUserBody (Some "Alicia") None None None (Some "admin") (Some false))
      [alice; root] in
  status_of (snd result) = 200%nat
  /\ User.updatedAt alice = 1000
  /\ User.updatedAt <$> fst result !! 0%nat = Some 9000
  /\ User.role <$> fst result !! 0%nat = Some User.RoleUser
  /\ User.isActive <$> fst result !! 0%nat = Some true.
Proof. vm_compute. done. Qed.

(** * Further properties of the code *)

(** ** The Authorization header *)

Lemma split_space_cons s : exists first more, split_space s = first :: more.
Proof.
  induction s as [|c rest (first & more & IH)]; simpl; [eauto|].
  rewrite IH. destruct (Ascii.eqb c " "); eauto.
Qed.

Lemma split_space_no_space s : no_space s = true -> split_space s = [s].
Proof.
  induction s as [|c rest IH]; simpl; [done|].
  intros [Hc Hrest]%andb_true_iff. rewrite (IH Hrest).
  apply negb_true_iff in Hc. by rewrite Hc.
Qed.

Lemma split_space_segment a s :
  no_space a = true ->
  split_space (a ++ String " "%char s) = a :: split_space s.
Proof.
  destruct (split_space_cons s) as (first & more & Hs).
  induction a as [|c rest IH]; simpl.
  - intros _. by rewrite Hs.
  - intros [Hc Hrest]%andb_true_iff. rewrite (IH Hrest).
    apply negb_true_iff in Hc. by rewrite Hc.
Qed.

Lemma split_space_bearer s :
  split_space ("Bearer " ++ s) = "Bearer" :: split_space s.
Proof. by apply (split_space_segment "Bearer" s). Qed.

Lemma bearer_of_clean_header (token : string) :
  no_space token = true -> bearer (Some ("Bearer " ++ token)) = Some token.
Proof.
  intros Hclean. unfold bearer.
  rewrite split_space_bearer, (split_space_no_space _ Hclean).
  assert (String.prefix "Bearer" ("Bearer " ++ token) = true) as ->
    by reflexivity.
  reflexivity.
Qed.

(** X1.  A header [Bearer <token>] whose token is non-blank text is read
    back as that token by both [extractTokenFromHeader] and the
    extraction of [protect] and [optionalAuth]. *)
Theorem bearer_header_round_trip (token : string) :
  no_space token = true ->
  extractTokenFromHeader (Some ("Bearer " ++ token)) = Some token
  /\ bearer (Some ("Bearer " ++ token)) = Some token.
Proof.
  intros Hclean. split; [|by apply bearer_of_clean_header].
  unfold extractTokenFromHeader.
  rewrite split_space_bearer, (split_space_no_space _ Hclean).
  assert (String.prefix "Bearer " ("Bearer " ++ token) = true) as ->
    by (by destruct token).
  reflexivity.
Qed.

Lemma bearer_header_round_trip_witness :
  extractTokenFromHeader (Some ("Bearer " ++ "eyJhbGciOi.eyJpZCI6MH0.c2ln"))
  = Some "eyJhbGciOi.eyJpZCI6MH0.c2ln"
  /\ bearer (Some ("Bearer " ++ "eyJhbGciOi.eyJpZCI6MH0.c2ln"))
     = Some "eyJhbGciOi.eyJpZCI6MH0.c2ln".
Proof.
  apply (bearer_header_round_trip "eyJhbGciOi.eyJpZCI6MH0.c2ln"). reflexivity.
Defined.

(** Where the two extractions part: [protect] only asks for a header
    that begins with "Bearer", and a doubled blank yields the empty
    token. *)
Example bearer_laxer_than_extract :
  extractTokenFromHeader (Some "BearerX abc") = None
  /\ bearer (Some "BearerX abc") = Some "abc"
  /\ extractTokenFromHeader (Some "Bearer  abc") = Some ""
  /\ bearer (Some "Bearer  abc") = Some "".
Proof. by vm_compute. Qed.

(** ** The authentication and authorization middleware *)

Lemma protect_Next_inv parse cfg now authorization (users : list User.t) user :
  protect parse cfg now authorization users = Next user ->
  exists token decoded u,
    bearer authorization = Some token
    /\ Jwt.verify (parse token) (JWT_SECRET cfg) now = inr decoded
    /\ users !! Jwt.id decoded = Some u
    /\ User.isActive u = true
    /\ user = profile (Jwt.id decoded) u.
Proof.
  unfold protect.
  destruct (bearer authorization) as [token|]; [|done].
  destruct (String.eqb token ""); [done|].
  destruct (Jwt.verify _ _ _) as [[]|decoded] eqn:Hverify; [done|done|].
  destruct (users !! Jwt.id decoded) as [u|] eqn:Hu; [|done].
  destruct (User.isActive u) eqn:Hactive; [|done].
  intros [= <-]. by exists token, decoded, u.
Qed.

(** X2.  [optionalAuth] attaches exactly the account [protect] would let
    through, and nothing when [protect] would reject. *)
Theorem optionalAuth_agrees_with_protect parse cfg now authorization
    (users : list User.t) :
  optionalAuth parse cfg now authorization users
  = match protect parse cfg now authorization users with
    | Next user => Some user
    | NextError _ _ => None
    end.
Proof.
  unfold optionalAuth, protect.
  destruct (bearer authorization) as [token|]; [|done].
  destruct (String.eqb token ""); [done|].
  destruct (Jwt.verify _ _ _) as [[]|decoded]; [done|done|].
  destruct (users !! Jwt.id decoded) as [u|]; [|done].
  by destruct (User.isActive u).
Qed.

(** X3.  Behind [protect] and [authorize('admin')] a handler only ever
    runs on behalf of an account that is stored, active and an
    administrator by its stored role, whatever role the token claims;
    every other request is answered 401 or 403 and the handler's
    collection is left as it was. *)
Theorem admin_only_runs_for_stored_admins {S A : Type} parse cfg now
    authorization (users : list User.t) (state : S)
    (handler : Caller -> S * response A) :
  (exists i u,
      users !! i = Some u
      /\ User.isActive u = true
      /\ User.role u = User.RoleAdmin
      /\ admin_only parse cfg now authorization users state handler
         = handler (mkCaller i User.RoleAdmin))
  \/ (exists status message,
        admin_only parse cfg now authorization users state handler
        = (state, Fail status message)
        /\ (status = 401 \/ status = 403)%nat).
Proof.
  unfold admin_only.
  destruct (protect parse cfg now authorization users) as [user|status message]
    eqn:Hprotect.
  - destruct (protect_Next_inv _ _ _ _ _ _ Hprotect)
      as (token & decoded & u & _ & _ & Hu & Hactive & ->).
    unfold authorize, caller_of. simpl.
    destruct (User.role u) eqn:Hrole; simpl.
    + right. eauto 6.
    + left. exists (Jwt.id decoded), u. by rewrite Hrole.
  - right. exists status, message. split; [done|].
    unfold protect in Hprotect.
    repeat match type of Hprotect with
           | context [match ?x with _ => _ end] => destruct x
           end; try discriminate; injection Hprotect as <- _; auto.
Qed.

(** X4.  With distinct signing secrets the two kinds of token stay apart:
    a refresh token from [generateTokenResponse] is turned away by
    [protect], and the access token is turned away by the refresh
    handler, both with 401. *)
Theorem token_kinds_stay_apart parse cfg issued i (u : User.t) :
  JWT_SECRET cfg <> JWT_REFRESH_SECRET cfg ->
  (forall now authorization token (users : list User.t),
      bearer authorization = Some token ->
      parse token = tr_refreshToken (generateTokenResponse cfg issued i u) ->
      exists message,
        protect parse cfg now authorization users = NextError 401 message)
  /\ (forall now (users : list User.t),
        refreshToken cfg now
          (Some (accessToken (generateTokenResponse cfg issued i u))) users
        = (users, Fail 401 "Invalid refresh token")).
Proof.
  intros Hsecrets. split.
  - intros now authorization token users Hbearer Hparse.
    unfold protect. rewrite Hbearer.
    destruct (String.eqb token ""); [eauto|].
    rewrite Hparse. simpl.
    rewrite (proj2 (String.eqb_neq _ _)) by congruence. simpl. eauto.
  - intros now users. unfold refreshToken, findByRefreshToken. simpl.
    by rewrite (proj2 (String.eqb_neq _ _)).
Qed.

Lemma token_kinds_stay_apart_witness :
  refreshToken production 5000
    (Some (accessToken (generateTokenResponse production 1000 0 alice)))
    [alice; root]
  = ([alice; root], Fail 401 "Invalid refresh token").
Proof.
  apply (proj2 (token_kinds_stay_apart (fun raw => Jwt.Malformed raw) production
                  1000 0 alice ltac:(discriminate))).
Defined.

(** ** Sessions *)

Lemma User_validate_ext (u v : User.t) :
  User.name u = User.name v ->
  User.email u = User.email v ->
  User.phone u = User.phone v ->
  User.validate u = User.validate v.
Proof. unfold User.validate. by intros -> -> ->. Qed.

Lemma User_save_valid now i u (users : list User.t) :
  User.validate u = [] ->
  exists saved,
    User_save now i u users = inr (saved, <[i := saved]> users)
    /\ (saved = u \/ saved = User.set_updatedAt now u).
Proof.
  intros Hvalid. unfold User_save. rewrite Hvalid.
  eexists. split; [reflexivity|]. case_decide; auto.
Qed.

Lemma User_save_valid_inv now i u (users : list User.t) result :
  User_save now i u users = inr result -> User.validate u = [].
Proof. unfold User_save. by destruct (User.validate u). Qed.

Lemma login_success_inv {hasher : Bcrypt} cfg now email password
    (users users' : list User.t) sent tokens :
  login cfg now email password users = (users', Json 200 (sent, tokens)) ->
  exists i u saved,
    users !! i = Some u
    /\ User.email u = email
    /\ User.isActive u = true
    /\ matchPassword u password = true
    /\ tokens = generateTokenResponse cfg now i u
    /\ User.validate u = []
    /\ users' !! i = Some saved
    /\ (forall j, j <> i -> users' !! j = users !! j)
    /\ sent = profile i saved
    /\ (saved = User.set_lastLogin (Some now)
                  (User.set_refreshToken (Some (tr_refreshToken tokens)) u)
        \/ saved = User.set_updatedAt now
                     (User.set_lastLogin (Some now)
                        (User.set_refreshToken (Some (tr_refreshToken tokens)) u))).
Proof.
  unfold login.
  destruct (findOne _ users) as [[i u]|] eqn:Hfind; [|done].
  destruct (User.isActive u) eqn:Hactive; simpl; [|done].
  destruct (matchPassword u password) eqn:Hmatch; simpl; [|done].
  destruct (User_save _ _ _ _) as [errors|[saved users2]] eqn:Hsave; [done|].
  intros [= <- <- <-].
  apply findOne_Some in Hfind as [Hu Hemail]. apply String.eqb_eq in Hemail.
  destruct (User_save_lookup _ _ _ _ _ _ Hsave (mk_is_Some _ _ Hu))
    as (Hsaved & Hshape).
  exists i, u, saved. repeat split; try done.
  - apply User_save_valid_inv in Hsave. by rewrite <- Hsave.
  - intros j Hj. by eapply User_save_other.
Qed.

(** X5.  The access token a successful login returns authenticates as the
    logged-in account, with the profile the login sent, at every moment
    before its expiry, and is turned away as expired from then on. *)
Theorem login_access_token_lifetime {hasher : Bcrypt} parse cfg now email
    password (users users' : list User.t) sent tokens token :
  login cfg now email password users = (users', Json 200 (sent, tokens)) ->
  no_space token = true ->
  token <> "" ->
  parse token = accessToken tokens ->
  forall now',
    (now' / 1000 < now / 1000 + JWT_EXPIRE cfg ->
     protect parse cfg now' (Some ("Bearer " ++ token)) users' = Next sent)
    /\ (now / 1000 + JWT_EXPIRE cfg <= now' / 1000 ->
        protect parse cfg now' (Some ("Bearer " ++ token)) users'
        = NextError 401 "Token expired. Please login again.").
Proof.
  intros Hlogin Hclean Hnonempty Hparse now'.
  destruct (login_success_inv _ _ _ _ _ _ _ _ Hlogin)
    as (i & u & saved & Hu & _ & Hactive & _ & -> & _ & Hsaved & _ & -> & Hshape).
  unfold protect.
  rewrite (bearer_of_clean_header token Hclean).
  rewrite (proj2 (String.eqb_neq _ _) Hnonempty), Hparse. simpl.
  rewrite String.eqb_refl. simpl. split; intros Htime.
  - rewrite (proj2 (N.leb_gt _ _) Htime). simpl. rewrite Hsaved.
    by destruct Hshape as [-> | ->]; simpl; rewrite Hactive.
  - by rewrite (proj2 (N.leb_le _ _) Htime).
Qed.

Lemma login_access_token_lifetime_witness :
  protect
    (fun raw => accessToken (generateTokenResponse production 7000 1 root))
    production 8000 (Some ("Bearer " ++ "root.access.token"))
    (fst (login (hasher := sample_bcrypt) production 7000 "root@example.com"
                "Sesame99" [alice; root]))
  = Next (profile 1
            (User.set_updatedAt 7000
               (User.set_lastLogin (Some 7000)
                  (User.set_refreshToken
                     (Some (tr_refreshToken
                              (generateTokenResponse production 7000 1 root)))
                     root)))).
Proof.
  refine (proj1 (login_access_token_lifetime (hasher := sample_bcrypt)
                   (fun raw => accessToken
                                 (generateTokenResponse production 7000 1 root))
                   production 7000 "root@example.com" "Sesame99" [alice; root]
                   _ _ _ "root.access.token" _ _ _ _ 8000) _).
  - vm_compute. reflexivity.
  - reflexivity.
  - discriminate.
  - reflexivity.
  - vm_compute. reflexivity.
Defined.

(** X6.  The refresh token a successful login returns is accepted by the
    refresh handler at every moment before its expiry, as long as the
    collection is as the login left it; the answer carries a new token
    pair for the same account. *)
Theorem login_refresh_round_trip {hasher : Bcrypt} cfg now email password
    (users users' : list User.t) sent tokens now' :
  login cfg now email password users = (users', Json 200 (sent, tokens)) ->
  now' / 1000 < now / 1000 + JWT_REFRESH_EXPIRE cfg ->
  exists saved users'',
    users' !! p_id sent = Some saved
    /\ refreshToken cfg now' (Some (tr_refreshToken tokens)) users'
       = (users'', Json 200 (generateTokenResponse cfg now' (p_id sent) saved)).
Proof.
  intros Hlogin Htime.
  destruct (login_success_inv _ _ _ _ _ _ _ _ Hlogin)
    as (i & u & saved & Hu & _ & Hactive & _ & -> & Hvalid & Hsaved & _ & ->
        & Hshape).
  exists saved. simpl.
  unfold refreshToken, findByRefreshToken. simpl.
  rewrite String.eqb_refl. simpl.
  rewrite (proj2 (N.leb_gt _ _) Htime). simpl. rewrite Hsaved.
  assert (User.refreshToken saved
          = Some (generateRefreshToken cfg now (Jwt.mkPayload i None None))
          /\ User.isActive saved = true
          /\ User.validate saved = []) as (Hslot & Hactive' & Hvalid').
  { destruct Hshape as [-> | ->]; simpl; repeat split; try done;
      by rewrite <- Hvalid. }
  rewrite bool_decide_eq_true_2 by done. simpl. rewrite Hactive'. simpl.
  destruct (User_save_valid now' i
              (User.set_refreshToken
                 (Some (generateRefreshToken cfg now'
                          (Jwt.mkPayload i None None))) saved) users')
    as (saved' & Hsave & _).
  { by rewrite <- Hvalid'. }
  rewrite Hsave. eauto.
Qed.

Lemma login_refresh_round_trip_witness :
  exists saved users'',
    [alice; root_session] !! p_id (profile 1 root_session) = Some saved
    /\ refreshToken production 9000
         (Some (tr_refreshToken (generateTokenResponse production 7000 1 root)))
         [alice; root_session]
       = (users'',
          Json 200 (generateTokenResponse production 9000
                      (p_id (profile 1 root_session)) saved)).
Proof.
  assert (Hlogin :
            login (hasher := sample_bcrypt) production 7000 "root@example.com"
                  "Sesame99" [alice; root]
            = ([alice; root_session],
               Json 200 (profile 1 root_session,
                         generateTokenResponse production 7000 1 root)))
    by (vm_compute; reflexivity).
  apply (login_refresh_round_trip (hasher := sample_bcrypt) production 7000
           "root@example.com" "Sesame99" [alice; root] [alice; root_session]
           (profile 1 root_session)
           (generateTokenResponse production 7000 1 root) 9000 Hlogin).
  vm_compute. reflexivity.
Defined.

(** ** Registration, continued *)

Lemma findOne_None_elem {A} (p : A -> bool) (l : list A) :
  findOne p l = None -> forall x, x ∈ l -> p x = false.
Proof.
  intros H x Hx. apply list_elem_of_lookup_1 in Hx as [j Hj].
  apply (findOne_from_None_inv _ _ _ H j x Hj).
Qed.

Lemma NoDup_emails_snoc (users : list User.t) u :
  NoDup (map User.email users) ->
  (forall v, v ∈ users -> User.email v <> User.email u) ->
  NoDup (map User.email (users ++ [u])).
Proof.
  intros Hnd Hfresh. rewrite map_app. apply NoDup_app. split; [done|].
  split; [|apply NoDup_singleton].
  intros e He. simpl. rewrite list_elem_of_singleton. intros ->.
  apply (list_elem_of_fmap_1 (B:=string)) in He as (v & Hv & Hin).
  by apply (Hfresh v).
Qed.

(** What the collection looks like after [register], whatever it
    answered: either untouched or extended by one account with the
    requested email. *)
Lemma register_collection {hasher : Bcrypt} cfg now body (users : list User.t) :
  fst (register cfg now body users) = users
  \/ exists added,
      fst (register cfg now body users) = (users ++ [added])%list
      /\ User.email added = reg_email body
      /\ forall v, v ∈ users -> User.email v <> reg_email body.
Proof.
  unfold register.
  destruct (findOne _ users) as [found|] eqn:Hfind; [by left|].
  assert (Hfresh : forall v, v ∈ users -> User.email v <> reg_email body).
  { intros v Hv. apply String.eqb_neq. by apply (findOne_None_elem _ _ Hfind). }
  unfold User_create. simpl.
  destruct (_ ++ _)%list; [|by left].
  unfold User_save. destruct (User.validate _).
  - right. eexists. simpl.
    rewrite (insert_app_r_alt users [_] (length users)) by lia.
    rewrite Nat.sub_diag. simpl. split; [reflexivity|].
    split; [by case_decide|done].
  - right. eexists. simpl. split; [reflexivity|]. by split.
Qed.

Lemma register_emails_NoDup {hasher : Bcrypt} cfg now body (users : list User.t) :
  NoDup (map User.email users) ->
  NoDup (map User.email (fst (register cfg now body users))).
Proof.
  intros Hnd.
  destruct (register_collection cfg now body users)
    as [-> | (added & -> & Hemail & Hfresh)]; [done|].
  apply NoDup_emails_snoc; [done|]. by rewrite Hemail.
Qed.



Lemma register_success_inv {hasher : Bcrypt} cfg now body
    (users users' : list User.t) sent tokens :
  register cfg now body users = (users', Json 201 (sent, tokens)) ->
  exists saved,
    users' = (users ++ [saved])%list
    /\ sent = profile (length users) saved
    /\ User.email saved = reg_email body
    /\ User.password saved = bcrypt_hash (reg_password body)
    /\ User.isActive saved = true
    /\ User.validate saved = [].
Proof.
  unfold register.
  destruct (findOne _ users) as [found|] eqn:Hfind; [done|].
  unfold User_create. simpl.
  destruct (_ ++ _)%list; [|done].
  unfold User_save.
  destruct (User.validate _) eqn:Hvalid; [|done].
  intros [= <- <- <-]. eexists.
  rewrite (insert_app_r_alt users [_] (length users)) by lia.
  rewrite Nat.sub_diag. simpl. split; [reflexivity|].
  case_decide; simpl; repeat split; done.
Qed.

(** X8.  Register, then log in: with a hasher whose [compare] accepts the
    password it hashed, the email and password of a successful
    registration log in at any later time, as the account that was
    created. *)
Theorem register_then_login {hasher : Bcrypt} cfg now body
    (users users' : list User.t) sent tokens now' :
  (forall p, bcrypt_compare p (bcrypt_hash p) = true) ->
  NoDup (map User.email users) ->
  register cfg now body users = (users', Json 201 (sent, tokens)) ->
  exists users'' sent' tokens',
    login cfg now' (reg_email body) (reg_password body) users'
    = (users'', Json 200 (sent', tokens'))
    /\ p_id sent' = p_id sent.
Proof.
  intros Hhasher Hnd Hregister.
  pose proof (register_emails_NoDup cfg now body users Hnd) as Hnd'.
  rewrite Hregister in Hnd'. simpl in Hnd'.
  destruct (register_success_inv _ _ _ _ _ _ _ Hregister)
    as (saved & -> & -> & Hemail & Hpassword & Hactive & Hvalid).
  assert (Hsaved : (users ++ [saved])%list !! length users = Some saved).
  { rewrite lookup_app_r by done. by rewrite Nat.sub_diag. }
  unfold login. rewrite <- Hemail.
  rewrite (findOne_unique_key User.email _ _ _ Hnd' Hsaved).
  rewrite Hactive. unfold matchPassword. rewrite Hpassword, Hhasher.
  cbn [negb].
  match goal with
  | |- context [User_save ?n ?i ?u ?l] =>
      destruct (User_save_valid n i u l) as (saved' & Hsave & _);
        [by rewrite <- Hvalid|]
  end.
  rewrite Hsave. eauto.
Qed.

Lemma register_then_login_witness :
  exists users'' sent' tokens',
    login (hasher := sample_bcrypt) production 9500 "bob@example.com" "Secret12"
          [alice; root; bob]
    = (users'', Json 200 (sent', tokens'))
    /\ p_id sent' = p_id (profile 2 bob).
Proof.
  assert (Hregister :
            register (hasher := sample_bcrypt) production 9000
              (mkRegisterBody "Bob" "bob@example.com" "Secret12" None None None)
              [alice; root]
            = ([alice; root; bob],
               Json 201 (profile 2 bob, generateTokenResponse production 9000 2 bob)))
    by (vm_compute; reflexivity).
  assert (Hunique : NoDup (map User.email [alice; root])).
  { simpl. apply NoDup_cons. split; [|apply NoDup_singleton].
    rewrite list_elem_of_singleton. discriminate. }
  exact (register_then_login (hasher := sample_bcrypt) production 9000
           (mkRegisterBody "Bob" "bob@example.com" "Secret12" None None None)
           [alice; root] [alice; root; bob] (profile 2 bob)
           (generateTokenResponse production 9000 2 bob) 9500
           (fun p => String.eqb_refl _) Hunique Hregister).
Defined.

(** ** Logout and password change *)



Lemma changePassword_lookup {hasher : Bcrypt} now caller current new
    (users users' : list User.t) :
  changePassword now caller current new users = (users', Json 200 tt) ->
  exists u,
    users !! caller_id caller = Some u
    /\ matchPassword u current = true
    /\ users' !! caller_id caller
       = Some (User.set_updatedAt now (set_password (bcrypt_hash new) u))
    /\ forall j, j <> caller_id caller -> users' !! j = users !! j.
Proof.
  unfold changePassword.
  destruct (users !! caller_id caller) as [u|] eqn:Hu; [|done].
  destruct (matchPassword u current) eqn:Hmatch; simpl; [|done].
  destruct (_ ++ _)%list; [|done].
  intros [= <-]. exists u. repeat split; try done.
  - apply list_lookup_insert_eq. by eapply lookup_lt_Some.
  - intros j Hj. by apply list_lookup_insert_ne.
Qed.

(** X10.  A password change with a wrong current password is answered 400
    and changes nothing.  A successful one replaces the caller's hash and
    moves [updatedAt], touches no other account, and does not end the
    session: every refresh call that succeeded before it succeeds after
    it with the same answer. *)
Theorem changePassword_keeps_session {hasher : Bcrypt} now caller current new
    (users : list User.t) :
  (forall u,
      users !! caller_id caller = Some u ->
      matchPassword u current = false ->
      changePassword now caller current new users
      = (users, Fail 400 "Current password is incorrect"))
  /\ (forall users',
        changePassword now caller current new users = (users', Json 200 tt) ->
        (exists u,
            users !! caller_id caller = Some u
            /\ users' !! caller_id caller
               = Some (User.set_updatedAt now
                         (set_password (bcrypt_hash new) u)))
        /\ (forall j, j <> caller_id caller -> users' !! j = users !! j)
        /\ (forall cfg now' token users1 tokens,
              refreshToken cfg now' (Some token) users
              = (users1, Json 200 tokens) ->
              exists users2,
                refreshToken cfg now' (Some token) users'
                = (users2, Json 200 tokens))).
Proof.
  split.
  - intros u Hu Hwrong. unfold changePassword. by rewrite Hu, Hwrong.
  - intros users' Hchange.
    destruct (changePassword_lookup _ _ _ _ _ _ Hchange)
      as (u & Hu & _ & Hu' & Hothers).
    split; [eauto|]. split; [done|].
    intros cfg now' token users1 tokens Hrefresh.
    destruct (refresh_success_inv _ _ _ _ _ _ Hrefresh)
      as (i & v & Hfalsy & Hfind & Hslot & Hactive & -> & saved & Hsave).
    destruct (findByRefreshToken_Some _ _ _ _ _ _ Hfind)
      as (Hv & decoded & Hverify & <-).
    apply User_save_valid_inv in Hsave.
    unfold refreshToken, findByRefreshToken. rewrite Hfalsy, Hverify.
    destruct (decide (Jwt.id decoded = caller_id caller)) as [Heq|Hne].
    + rewrite Heq in *. rewrite Hu'. rewrite Hu in Hv. injection Hv as ->.
      cbn [User.refreshToken User.set_updatedAt set_password User.isActive].
      rewrite bool_decide_eq_true_2 by done. rewrite Hactive. cbn [negb].
      match goal with
      | |- context [User_save ?n ?i ?w ?l] =>
          destruct (User_save_valid n i w l) as (saved' & Hsave' & _);
            [by rewrite <- Hsave|]
      end.
      rewrite Hsave'. eauto.
    + rewrite (Hothers _ Hne), Hv.
      rewrite bool_decide_eq_true_2 by done. rewrite Hactive. cbn [negb].
      match goal with
      | |- context [User_save ?n ?i ?w ?l] =>
          destruct (User_save_valid n i w l) as (saved' & Hsave' & _);
            [done|]
      end.
      rewrite Hsave'. eauto.
Qed.

Lemma changePassword_keeps_session_witness :
  changePassword (hasher := sample_bcrypt) 9000 (mkCaller 0 User.RoleUser)
                 "Guess123" "NewPassw0rd" [alice; root]
  = ([alice; root], Fail 400 "Current password is incorrect").
Proof.
  apply (proj1 (changePassword_keeps_session (hasher := sample_bcrypt) 9000
                  (mkCaller 0 User.RoleUser) "Guess123" "NewPassw0rd"
                  [alice; root]) alice); reflexivity.
Defined.


(** ** Deactivated accounts *)

(** X11.  A deactivated account is locked out everywhere: a login with
    its email is answered 401 with the deactivation message whatever the
    password, and no request passes [protect] as that account, whatever
    token it carries.  Emails are unique in the collection. *)
Theorem deactivated_account_locked_out {hasher : Bcrypt} parse cfg
    (users : list User.t) i u :
  NoDup (map User.email users) ->
  users !! i = Some u ->
  User.isActive u = false ->
  (forall now password,
      login cfg now (User.email u) password users
      = (users,
         Fail 401 "Your account has been deactivated. Please contact support."))
  /\ (forall now authorization user,
        protect parse cfg now authorization users = Next user ->
        p_id user <> i).
Proof.
  intros Hunique Hu Hinactive. split.
  - intros now password. unfold login.
    rewrite (findOne_unique_key User.email users i u Hunique Hu).
    by rewrite Hinactive.
  - intros now authorization user Hprotect.
    destruct (protect_Next_inv _ _ _ _ _ _ Hprotect)
      as (token & decoded & v & _ & _ & Hv & Hactive & ->).
    simpl. intros Heq. rewrite Heq, Hu in Hv. injection Hv as <-. congruence.
Qed.

Lemma deactivated_account_locked_out_witness :
  login (hasher := sample_bcrypt) production 9000 "alice@example.com"
        "Passw0rd" [User.set_isActive false alice; root]
  = ([User.set_isActive false alice; root],
     Fail 401 "Your account has been deactivated. Please contact support.").
Proof.
  apply (proj1 (deactivated_account_locked_out (hasher := sample_bcrypt)
                  (fun raw => Jwt.Malformed raw) production
                  [User.set_isActive false alice; root] 0
                  (User.set_isActive false alice)
                  ltac:(simpl; apply NoDup_cons; split;
                        [rewrite list_elem_of_singleton; discriminate
                        |apply NoDup_singleton])
                  eq_refl eq_refl)).
Defined.

(** X12.  Switching an account off and on again does not bring its
    session back: after the two toggles the account is active with an
    empty refresh-token slot, so every refresh call with a token naming
    it still fails with 401 until the next login. *)
Theorem reactivation_does_not_restore_session cfg now1 now2 caller1 caller2 id
    (users users1 users2 : list User.t) data1 data2 :
  toggleUserStatus now1 caller1 id (JBool false) users = (users1, Json 200 data1) ->
  toggleUserStatus now2 caller2 id (JBool true) users1 = (users2, Json 200 data2) ->
  (exists u, users2 !! id = Some u
             /\ User.isActive u = true /\ User.refreshToken u = None)
  /\ forall now' secret payload iat exp,
      Jwt.id payload = id ->
      refreshToken cfg now' (Some (Jwt.Signed secret payload iat exp)) users2
      = (users2, Fail 401 "Invalid refresh token").
Proof.
  intros Hoff Hon.
  destruct (toggleUserStatus_off_inv _ _ _ _ _ _ Hoff)
    as (u1 & Hu1 & _ & Hslot).
  assert (Hu2 : exists u, users2 !! id = Some u
                  /\ User.isActive u = true /\ User.refreshToken u = None).
  { unfold toggleUserStatus in Hon. rewrite Hu1 in Hon.
    destruct (caller_id caller2 =? id)%nat; [done|]. simpl in Hon.
    destruct (User_save _ _ _ _) as [errors|[saved users']] eqn:Hsave; [done|].
    injection Hon as <- _.
    destruct (User_save_lookup _ _ _ _ _ _ Hsave (mk_is_Some _ _ Hu1))
      as (Hsaved & [-> | ->]); eauto. }
  split; [done|].
  destruct Hu2 as (u2 & Hu2 & _ & Hslot2).
  intros now' secret payload iat exp Hid.
  apply refresh_rejects_unmatched; [done|].
  intros decoded v Hverify Hv.
  destruct (verify_payload _ _ _ _ Hverify) as (iat' & exp' & [= _ <- _ _]).
  rewrite Hid, Hu2 in Hv. injection Hv as <-. by rewrite Hslot2.
Qed.

Lemma reactivation_does_not_restore_session_witness :
  refreshToken production 9000 (Some alice_token)
    [User.set_updatedAt 6000
       (User.set_isActive true
          (User.set_updatedAt 5000
             (User.set_refreshToken None (User.set_isActive false alice))));
     root]
  = ([User.set_updatedAt 6000
        (User.set_isActive true
           (User.set_updatedAt 5000
              (User.set_refreshToken None (User.set_isActive false alice))));
      root],
     Fail 401 "Invalid refresh token").
Proof.
  apply (proj2 (reactivation_does_not_restore_session production 5000 6000
                  admin_caller admin_caller 0 [alice; root]
                  [User.set_updatedAt 5000
                     (User.set_refreshToken None (User.set_isActive false alice));
                   root]
                  _ (0%nat, "Alice", "alice@example.com", false)
                  (0%nat, "Alice", "alice@example.com", true)
                  eq_refl eq_refl)).
  reflexivity.
Defined.

(** ** What a standard user cannot do *)

(** X13.  A caller with the standard role cannot reach another account:
    [getUser] never sends them another account's profile, and neither
    [updateUser] nor [deleteUser] changes any account but their own. *)
Theorem standard_user_confined now caller id body (users : list User.t) :
  caller_role caller = User.RoleUser ->
  (id <> caller_id caller ->
   exists status message,
     getUser caller id users = Fail status message
     /\ (status = 403 \/ status = 404)%nat)
  /\ (forall j, j <> caller_id caller ->
        fst (updateUser now caller id body users) !! j = users !! j
        /\ fst (deleteUser now caller id users) !! j = users !! j).
Proof.
  intros Hrole. split.
  - intros Hother. unfold getUser.
    destruct (users !! id); [|eauto].
    rewrite Hrole, (proj2 (Nat.eqb_neq _ _)) by done. simpl. eauto.
  - intros j Hj. split.
    + unfold updateUser. destruct (users !! id); [|done].
      rewrite Hrole. destruct (Nat.eqb_spec (caller_id caller) id) as [<-|Hne];
        simpl; [|done].
      destruct (validate_update _); [|done]. simpl.
      by apply findByIdAndUpdate_other.
    + unfold deleteUser. destruct (users !! id); [|done].
      rewrite Hrole. destruct (Nat.eqb_spec (caller_id caller) id) as [<-|Hne];
        simpl; [|done].
      by apply findByIdAndUpdate_other.
Qed.

Lemma standard_user_confined_witness :
  exists status message,
    getUser (mkCaller 0 User.RoleUser) 1 [alice; root] = Fail status message
    /\ (status = 403 \/ status = 404)%nat.
Proof.
  apply (proj1 (standard_user_confined 9000 (mkCaller 0 User.RoleUser) 1
                  (mkUpdateUserBody None None None None None None)
                  [alice; root] eq_refl)).
  discriminate.
Defined.

(** ** Statistics *)

Lemma count_partition {A} (p : A -> bool) (l : list A) :
  (count p l + count (fun x => negb (p x)) l = length l)%nat.
Proof.
  unfold count. induction l as [|x l IH]; simpl; [done|].
  destruct (p x); simpl; lia.
Qed.

(** X14.  The user statistics add up: active and inactive accounts, and
    administrators and standard users, each split the total. *)
Theorem user_stats_add_up (users : list User.t) :
  (activeUsers (getUserStats_group users)
   + inactiveUsers (getUserStats_group users)
   = totalUsers (getUserStats_group users))%nat
  /\ (adminCount (getUserStats_group users)
      + userCount (getUserStats_group users)
      = totalUsers (getUserStats_group users))%nat.
Proof.
  split; simpl.
  - apply count_partition.
  - apply (count_partition (fun u => User.is_admin (User.role u))).
Qed.

(** ** Token expiry *)

(** X15.  The two expiry checks agree except in the very second of
    expiry: whenever [isTokenExpired] says a correctly signed token has
    expired, [verifyToken] rejects it as expired, and whenever it says
    the token has not, [verifyToken] accepts it, unless the clock stands
    exactly at [exp], where [verifyToken] already rejects. *)
Theorem expiry_checks_differ_at_the_boundary now secret payload iat exp :
  (isTokenExpired now (Jwt.Signed secret payload iat exp) = true ->
   verifyToken now (Jwt.Signed secret payload iat exp) secret
   = Fail 401 "Token expired")
  /\ (isTokenExpired now (Jwt.Signed secret payload iat exp) = false ->
      now / 1000 <> exp ->
      verifyToken now (Jwt.Signed secret payload iat exp) secret
      = Json 200 payload)
  /\ (exp <> 0 ->
      now / 1000 = exp ->
      isTokenExpired now (Jwt.Signed secret payload iat exp) = false
      /\ verifyToken now (Jwt.Signed secret payload iat exp) secret
         = Fail 401 "Token expired").
Proof.
  unfold isTokenExpired, verifyToken. simpl. rewrite String.eqb_refl. simpl.
  generalize (now / 1000). intros second.
  split; [|split].
  - destruct (N.eqb_spec exp 0) as [->|Hexp].
    + intros _. by rewrite (proj2 (N.leb_le 0 second)) by lia.
    + intros Hlt%N.ltb_lt. by rewrite (proj2 (N.leb_le _ _)) by lia.
  - destruct (N.eqb_spec exp 0) as [->|Hexp]; [done|].
    intros Hge%N.ltb_ge Hne. by rewrite (proj2 (N.leb_gt _ _)) by lia.
  - intros Hexp Hnow. rewrite (proj2 (N.eqb_neq _ _) Hexp).
    rewrite (proj2 (N.ltb_ge _ _)) by lia.
    by rewrite (proj2 (N.leb_le _ _)) by lia.
Qed.

Lemma expiry_checks_differ_at_the_boundary_witness :
  isTokenExpired 901000 (Jwt.Signed "access-secret" (Jwt.mkPayload 0 None None) 1 901)
  = false
  /\ verifyToken 901000
       (Jwt.Signed "access-secret" (Jwt.mkPayload 0 None None) 1 901)
       "access-secret"
     = Fail 401 "Token expired".
Proof.
  apply (proj2 (proj2 (expiry_checks_differ_at_the_boundary 901000
                         "access-secret" (Jwt.mkPayload 0 None None) 1 901)));
    [discriminate | reflexivity].
Defined.

(** ** Products: SKU uniqueness *)

Lemma NoDup_insert_key (l : list string) (i : nat) (old x : string) :
  NoDup l ->
  l !! i = Some old ->
  x = old \/ (forall j y, j <> i -> l !! j = Some y -> y <> x) ->
  NoDup (<[i := x]> l).
Proof.
  intros Hnd Hi [-> | Hfresh]; [by rewrite list_insert_id|].
  apply NoDup_alt. intros a b y Ha Hb.
  destruct (decide (a = i)) as [->|Hai], (decide (b = i)) as [->|Hbi]; [done| | |].
  - rewrite list_lookup_insert_eq in Ha by (by eapply lookup_lt_Some).
    rewrite list_lookup_insert_ne in Hb by done.
    injection Ha as <-. by destruct (Hfresh b x Hbi Hb).
  - rewrite list_lookup_insert_eq in Hb by (by eapply lookup_lt_Some).
    rewrite list_lookup_insert_ne in Ha by done.
    injection Hb as <-. by destruct (Hfresh a x Hai Ha).
  - rewrite list_lookup_insert_ne in Ha, Hb by done.
    by eapply (NoDup_lookup l).
Qed.

Lemma createProduct_collection now caller body (products : list Product.t) :
  fst (createProduct now caller body products) = products
  \/ exists added,
      fst (createProduct now caller body products) = (products ++ [added])%list
      /\ Product.sku added = toUpperCase (cb_sku body)
      /\ forall p, p ∈ products -> Product.sku p <> toUpperCase (cb_sku body).
Proof.
  unfold createProduct.
  destruct (findOne _ products) as [found|] eqn:Hfind; [by left|].
  unfold Product_create. destruct (Product.validate _); [|by left].
  right. eexists. simpl. split; [reflexivity|]. split; [done|].
  intros p Hp. apply String.eqb_neq. by apply (findOne_None_elem _ _ Hfind).
Qed.

Lemma updateProduct_skus now caller id body (products : list Product.t) :
  map Product.sku (fst (updateProduct now caller id body products))
  = map Product.sku products
  \/ exists old sku,
      map Product.sku products !! id = Some old
      /\ map Product.sku (fst (updateProduct now caller id body products))
         = <[id := sku]> (map Product.sku products)
      /\ (sku = old
          \/ forall j y, j <> id -> map Product.sku products !! j = Some y ->
                         y <> sku).
Proof.
  unfold updateProduct. change ObjectId with nat in *.
  destruct (products !! id) as [product|] eqn:Hproduct; [|by left].
  destruct (ub_sku body) as [sku|] eqn:Hsku.
  - destruct (negb (String.eqb sku "")
              && negb (String.eqb (toUpperCase sku) (Product.sku product)))
      eqn:Hcheck.
    + destruct (findOne_id _ products) as [found|] eqn:Hfind; [by left|].
      destruct (validate_product_update body); [|by left].
      right. exists (Product.sku product), (toUpperCase sku). simpl.
      split; [by rewrite list_lookup_fmap, Hproduct|].
      split.
      * unfold findByIdAndUpdate. change ObjectId with nat. rewrite Hproduct.
        rewrite list_fmap_insert. simpl. by rewrite Hsku.
      * right. intros j y Hj Hy.
        rewrite list_lookup_fmap in Hy.
        destruct (products !! j) as [q|] eqn:Hq; [|done].
        injection Hy as <-.
        pose proof (findOne_from_None_inv _ _ _ Hfind j q Hq) as Hnone.
        simpl in Hnone. rewrite (proj2 (Nat.eqb_neq _ _) Hj) in Hnone.
        rewrite andb_true_r in Hnone. by apply String.eqb_neq.
    + destruct (validate_product_update body) eqn:Hvalid; [|by left].
      right. exists (Product.sku product), (toUpperCase sku). simpl.
      split; [by rewrite list_lookup_fmap, Hproduct|].
      split.
      * unfold findByIdAndUpdate. change ObjectId with nat. rewrite Hproduct.
        rewrite list_fmap_insert. simpl. by rewrite Hsku.
      * left. apply andb_false_iff in Hcheck as [Hempty | Hsame].
        -- apply negb_false_iff, String.eqb_eq in Hempty. subst sku.
           unfold validate_product_update in Hvalid. rewrite Hsku in Hvalid.
           repeat (apply app_eq_nil in Hvalid as [? Hvalid]). done.
        -- by apply negb_false_iff, String.eqb_eq in Hsame.
  - destruct (validate_product_update body); [|by left].
    left. simpl. unfold findByIdAndUpdate. change ObjectId with nat. rewrite Hproduct.
    rewrite list_fmap_insert. simpl. rewrite Hsku. simpl.
    apply list_insert_id. by rewrite list_lookup_fmap, Hproduct.
Qed.

(** X16.  SKUs stay unique: neither [createProduct] nor [updateProduct]
    ever leaves two stored products with the same SKU, whatever they
    answer; what is stored is the upper-cased SKU. *)
Theorem products_keep_skus_unique now caller id create_body update_body
    (products : list Product.t) :
  NoDup (map Product.sku products) ->
  NoDup (map Product.sku (fst (createProduct now caller create_body products)))
  /\ NoDup (map Product.sku
              (fst (updateProduct now caller id update_body products))).
Proof.
  intros Hnd. split.
  - destruct (createProduct_collection now caller create_body products)
      as [-> | (added & -> & Hsku & Hfresh)]; [done|].
    rewrite map_app. apply NoDup_app. split; [done|].
    split; [|apply NoDup_singleton].
    intros s Hs. simpl. rewrite list_elem_of_singleton. intros ->.
    apply (list_elem_of_fmap_1 (B:=string)) in Hs as (p & Hp & Hin).
    apply (Hfresh p Hin). congruence.
  - destruct (updateProduct_skus now caller id update_body products)
      as [-> | (old & sku & Hold & -> & Hcase)]; [done|].
    by apply (NoDup_insert_key _ _ old).
Qed.

Lemma products_keep_skus_unique_witness :
  NoDup (map Product.sku
           (fst (createProduct 8000 admin_caller
                   (mkCreateProductBody "Gadget" "A handy gadget" 10 None
                      "other" "Acme" "wid-1" 5
                      [mkImageInput "https://cdn.example.com/gadget.png" None None]
                      None) [widget]))).
Proof.
  apply (proj1 (products_keep_skus_unique 8000 admin_caller 0
                  (mkCreateProductBody "Gadget" "A handy gadget" 10 None
                     "other" "Acme" "wid-1" 5
                     [mkImageInput "https://cdn.example.com/gadget.png" None None]
                     None)
                  (mkUpdateProductBody None None None None None None None None
                                       None None None)
                  [widget] (NoDup_singleton _))).
Defined.

(** ** Products: soft deletion *)

Lemma Product_validate_status (p : Product.t) active by_ :
  Product.validate (Product.set_updatedBy by_ (Product.set_isActive active p))
  = Product.validate p.
Proof. reflexivity. Qed.

(** X17.  Deleting a product only hides it: afterwards [getProduct]
    answers 404 for it, yet the document is still stored with everything
    but the active flag, the updater and [updatedAt] as before, and no
    other product is touched.  For a product that satisfies its schema,
    switching it back on through the status toggle makes [getProduct]
    find it again. *)
Theorem product_soft_delete now now' caller caller' id
    (products : list Product.t) p :
  products !! id = Some p ->
  getProduct id (fst (deleteProduct now caller id products))
  = Fail 404 "Product not found"
  /\ fst (deleteProduct now caller id products) !! id
     = Some (Product.set_updatedAt now
               (Product.set_updatedBy (Some (caller_id caller))
                  (Product.set_isActive false p)))
  /\ (forall j, j <> id ->
        fst (deleteProduct now caller id products) !! j = products !! j)
  /\ (Product.validate p = [] ->
      exists restored products',
        toggleProductStatus now' caller' id (JBool true)
                            (fst (deleteProduct now caller id products))
        = (products', Json 200 (id, restored))
        /\ getProduct id products' = Json 200 (id, restored)
        /\ Product.name restored = Product.name p
        /\ Product.sku restored = Product.sku p
        /\ (Product.price restored == Product.price p)%Q
        /\ (Product.stock restored == Product.stock p)%Q).
Proof.
  intros Hp.
  assert (Hdeleted :
            fst (deleteProduct now caller id products) !! id
            = Some (Product.set_updatedAt now
                      (Product.set_updatedBy (Some (caller_id caller))
                         (Product.set_isActive false p)))).
  { unfold deleteProduct. rewrite Hp. simpl.
    by rewrite (findByIdAndUpdate_lookup _ _ _ _ _ _ Hp). }
  split; [|split; [done|split]].
  - unfold getProduct. by rewrite Hdeleted.
  - intros j Hj. unfold deleteProduct. rewrite Hp. simpl.
    by apply findByIdAndUpdate_other.
  - intros Hvalid. unfold toggleProductStatus. rewrite Hdeleted.
    match goal with
    | |- context [Product_save ?n ?i ?q ?l] =>
        destruct (Product_save_valid n i q l) as (restored & products' & Hsave);
          [exact Hvalid|]
    end.
    rewrite Hsave. exists restored, products'.
    destruct (Product_save_lookup _ _ _ _ _ _ Hsave (mk_is_Some _ _ Hdeleted))
      as (Hrestored & _ & Hshape).
    split; [done|]. unfold getProduct. rewrite Hrestored.
    destruct Hshape as [-> | ->]; simpl; repeat split; reflexivity.
Qed.

Lemma product_soft_delete_witness :
  getProduct 0 (fst (deleteProduct 8000 admin_caller 0 [widget]))
  = Fail 404 "Product not found".
Proof.
  apply (proj1 (product_soft_delete 8000 8500 admin_caller admin_caller 0
                  [widget] widget eq_refl)).
Defined.

(** ** Products: the primary image on the save path *)

Lemma first_primary_find imgs k :
  first_primary imgs = Some k ->
  exists img,
    imgs !! k = Some img
    /\ Product.isPrimary img = true
    /\ List.find Product.isPrimary imgs = Some img.
Proof.
  revert k. induction imgs as [|x rest IH]; intros k; simpl; [done|].
  destruct (Product.isPrimary x) eqn:Hx.
  - intros [= <-]. by exists x.
  - destruct (first_primary rest) as [k'|]; simpl; [|done].
    intros [= <-]. destruct (IH k' eq_refl) as (img & ? & ? & ?).
    by exists img.
Qed.

(** X18.  A product that [createProduct] stores with at least one image
    has exactly one primary image: the first image the request flagged,
    or the first image when it flagged none.  The [primaryImage] virtual
    is the URL of that image, and the URLs are stored in request order. *)
Theorem createProduct_one_primary_image now caller body
    (products products' : list Product.t) i product :
  createProduct now caller body products = (products', Json 201 (i, product)) ->
  cb_images body <> [] ->
  products' !! i = Some product
  /\ primaries (Product.images product) = 1%nat
  /\ map Product.url (Product.images product) = map in_url (cb_images body)
  /\ exists img,
      Product.images product
        !! default 0%nat (first_primary (map cast_image (cb_images body)))
      = Some img
      /\ Product.isPrimary img = true
      /\ Product.primaryImage product = Some (Product.url img).
Proof.
  unfold createProduct.
  destruct (findOne _ products); [done|].
  unfold Product_create. destruct (Product.validate _); [|done].
  intros [= <- <- <-] Himages. split.
  { rewrite lookup_app_r by done. by rewrite Nat.sub_diag. }
  assert (Hcast : map cast_image (cb_images body) <> []).
  { by destruct (cb_images body). }
  destruct (pre_save_images_one_primary _ Hcast) as (Hone & Hfirst & Hurls).
  simpl. split; [done|]. split.
  { rewrite Hurls, map_map. reflexivity. }
  destruct (first_primary_find _ _ Hfirst) as (img & Himg & Hprimary & Hfind).
  exists img. split; [done|]. split; [done|].
  unfold Product.primaryImage. simpl. by rewrite Hfind.
Qed.

Lemma createProduct_one_primary_image_witness :
  primaries
    (Product.images
       (Product.pre_save
          (Product.mk "Gadget" "A handy gadget" 10 None "other" "Acme" "GAD-1" 5
             [Product.mkImage "https://cdn.example.com/a.png" "" false;
              Product.mkImage "https://cdn.example.com/b.png" "" true;
              Product.mkImage "https://cdn.example.com/c.png" "" true]
             true false 1 None 8000 8000)))
  = 1%nat.
Proof.
  assert (Hcreate :
            createProduct 8000 admin_caller
              (mkCreateProductBody "Gadget" "A handy gadget" 10 None "other"
                 "Acme" "gad-1" 5
                 [mkImageInput "https://cdn.example.com/a.png" None None;
                  mkImageInput "https://cdn.example.com/b.png" None (Some true);
                  mkImageInput "https://cdn.example.com/c.png" None (Some true)]
                 None) [widget]
            = ([widget;
                Product.pre_save
                  (Product.mk "Gadget" "A handy gadget" 10 None "other" "Acme"
                     "GAD-1" 5
                     [Product.mkImage "https://cdn.example.com/a.png" "" false;
                      Product.mkImage "https://cdn.example.com/b.png" "" true;
                      Product.mkImage "https://cdn.example.com/c.png" "" true]
                     true false 1 None 8000 8000)],
               Json 201
                 (1%nat,
                  Product.pre_save
                    (Product.mk "Gadget" "A handy gadget" 10 None "other" "Acme"
                       "GAD-1" 5
                       [Product.mkImage "https://cdn.example.com/a.png" "" false;
                        Product.mkImage "https://cdn.example.com/b.png" "" true;
                        Product.mkImage "https://cdn.example.com/c.png" "" true]
                       true false 1 None 8000 8000))))
    by (vm_compute; reflexivity).
  apply (proj1 (proj2 (createProduct_one_primary_image _ _ _ _ _ _ _ Hcreate
                         ltac:(discriminate)))).
Defined.

Lemma pre_save_images_idempotent (imgs : list Product.Image) :
  Product.pre_save_images (Product.pre_save_images imgs)
  = Product.pre_save_images imgs.
Proof.
  destruct imgs as [|img rest]; [done|].
  destruct (pre_save_images_one_primary (img :: rest) ltac:(done))
    as (Hone & _ & _).
  unfold Product.pre_save_images at 1.
  fold (primaries (Product.pre_save_images (img :: rest))).
  rewrite Hone. simpl.
  by destruct (length (Product.pre_save_images (img :: rest))).
Qed.

(** X19.  The pre-save middleware is idempotent: saving a product a
    second time leaves its image list as the first save made it. *)
Theorem pre_save_idempotent (p : Product.t) :
  Product.pre_save (Product.pre_save p) = Product.pre_save p.
Proof.
  destruct p. unfold Product.pre_save. simpl.
  by rewrite pre_save_images_idempotent.
Qed.

(** ** Products: discount and inventory figures *)

Lemma Qle_bool_false x y : Qle_bool x y = false <-> (y < x)%Q.
Proof.
  split.
  - intros H. apply Qnot_le_lt. intros Hle.
    apply Qle_bool_iff in Hle. congruence.
  - intros H. destruct (Qle_bool x y) eqn:Hle; [|done].
    apply Qle_bool_iff in Hle. lra.
Qed.

Lemma Qeq_bool_false x y : Qeq_bool x y = false <-> ~ (x == y)%Q.
Proof.
  split.
  - intros H Heq. apply Qeq_bool_iff in Heq. congruence.
  - intros H. destruct (Qeq_bool x y) eqn:Heq; [|done].
    apply Qeq_bool_iff in Heq. done.
Qed.

(** X20.  For a product whose price is not negative the discount
    percentage lies between 0 and 100, and it is 0 whenever the
    compare-at price is absent, zero or not above the price. *)
Theorem discountPercentage_bounds (p : Product.t) :
  (0 <= Product.price p)%Q ->
  (0 <= discountPercentage p <= 100)%Z
  /\ (forall c, Product.comparePrice p = Some c ->
                (c <= Product.price p)%Q -> discountPercentage p = 0%Z)
  /\ (Product.comparePrice p = None -> discountPercentage p = 0%Z).
Proof.
  intros Hprice. unfold discountPercentage.
  destruct (Product.comparePrice p) as [c|]; [|by repeat split].
  destruct (Qeq_bool c 0) eqn:Hzero; simpl.
  { repeat split; try done; lia. }
  destruct (Qle_bool c (Product.price p)) eqn:Hle.
  { repeat split; try done; lia. }
  apply Qle_bool_false in Hle.
  split; [|split; [|done]].
  - assert (Hc : (0 < c)%Q) by lra.
    assert (Hratio : (0 <= (c - Product.price p) / c * 100 <= 100)%Q).
    { split.
      - apply Qmult_le_0_compat; [|lra].
        apply Qle_shift_div_l; [done|lra].
      - apply Qle_trans with (1 * 100)%Q; [|lra].
        apply Qmult_le_compat_r; [|lra].
        apply Qle_shift_div_r; [done|lra]. }
    unfold Math_round.
    set (ratio := ((c - Product.price p) / c * 100)%Q) in *. split.
    + change 0%Z with (Qfloor (1 # 2)).
      apply Qfloor_resp_le. lra.
    + change 100%Z with (Qfloor (100 + (1 # 2))).
      apply Qfloor_resp_le. lra.
  - intros c' [= <-] Hbelow. lra.
Qed.

Lemma discountPercentage_bounds_witness :
  (0 <= discountPercentage widget <= 100)%Z.
Proof.
  apply (proj1 (discountPercentage_bounds widget ltac:(discriminate))).
Defined.

Example discountPercentage_widget : discountPercentage widget = 17%Z.
Proof. reflexivity. Qed.

Lemma inventory_pointwise (p : Product.t) :
  (Z.b2z (Product.isActive p)
   - Z.b2z (Product.isActive p && Qle_bool (Product.stock p) 5
            && negb (Qle_bool (Product.stock p) 0))
   - Z.b2z (Product.isActive p && Qeq_bool (Product.stock p) 0)
   = Z.b2z (Product.isActive p
            && (negb (Qle_bool (Product.stock p) 5)
                || Qnegative (Product.stock p))))%Z.
Proof.
  unfold Qnegative.
  destruct (Product.isActive p); simpl; [|done].
  destruct (Qle_bool (Product.stock p) 5) eqn:H5;
    destruct (Qle_bool (Product.stock p) 0) eqn:H0;
    destruct (Qeq_bool (Product.stock p) 0) eqn:Hz;
    destruct (Qle_bool 0 (Product.stock p)) eqn:Hn; simpl; try done; exfalso;
    repeat match goal with
           | H : Qle_bool _ _ = true |- _ => apply Qle_bool_iff in H
           | H : Qle_bool _ _ = false |- _ => apply Qle_bool_false in H
           | H : Qeq_bool _ _ = true |- _ => apply Qeq_bool_iff in H
           | H : Qeq_bool _ _ = false |- _ => apply Qeq_bool_false in H
           end; try lra.
  all: apply Hz; lra.
Qed.

Lemma count_b2z {A} (p : A -> bool) (l : list A) :
  Z.of_nat (count p l) = fold_right (fun x acc => (Z.b2z (p x) + acc)%Z) 0%Z l.
Proof.
  unfold count. induction l as [|x l IH]; simpl; [done|].
  destruct (p x); simpl; lia.
Qed.

(** X21.  The [inStockProducts] figure of the product statistics is the
    number of active products whose stock is above 5, plus the active
    products whose stock is negative (which no validated write
    produces): the low-stock and out-of-stock counts never overlap. *)
Theorem inStockProducts_meaning (products : list Product.t) :
  inStockProducts (getProductStats_inventory products)
  = Z.of_nat
      (count (fun p => Product.isActive p
                       && (negb (Qle_bool (Product.stock p) 5)
                           || Qnegative (Product.stock p))) products).
Proof.
  unfold getProductStats_inventory. simpl. rewrite !count_b2z.
  induction products as [|p rest IH]; simpl; [done|].
  pose proof (inventory_pointwise p). lia.
Qed.
